(** * Offline operation queue and sync driver

    A shallow embedding of the offline write queue of the annotation
    application:

    - [supabasecliente.js]: [queueOfflineOperation], [processSyncQueue];
    - [services/missionService.ts] (second half): [SyncService.syncNow],
      [retryFailedItem], [clearSyncedItems];
    - [services/annotationService.ts] (second half):
      [ImageService.getOrCreateImage];
    - the annotation service V2: [AnnotationServiceV2.createAnnotation];
    - [supabase-schema.sql]: table [sync_queue] and its row level security.

    The asynchronous functions are sequential ([await] on every call), so
    they are embedded as computations in a state-and-exception monad over a
    [World] that holds what the code can observe: the signed-in user, the
    connectivity flags, the hosted tables and the local key-value store.

    The hosted store and the client library are not part of the
    repository.  The client is taken as the code uses it everywhere: an
    awaited request resolves to [{ data, error }], and the callers that
    care write [if (error) throw error].  What the environment does to a
    request (answer it, answer with an error, reject the promise) is a
    parameter of the world, so the statements hold for every environment
    unless they say which answers they need.  Time is a counter that moves
    on at every reading; two rows with the same [created_at] are fetched
    in an order the statements do not depend on. *)

From Stdlib Require Import ZArith Lia.
From stdpp Require Import base option list sorting gmap strings pretty.

Set Default Proof Using "Type".
Local Set Warnings "-register-all".

(** ** Data model *)

(** JSON values as they travel in [record_data] and in table rows. *)
Inductive Json :=
| JNull
| JNum (z : Z)
| JStr (s : string)
| JUuid (u : nat)
| JArr (elements : list Json)
| JObj (fields : list (string * Json)).

(** [sync_queue.operation]: TEXT with CHECK (operation IN ('insert',
    'update', 'delete')). *)
Inductive Operation := op_insert | op_update | op_delete.

(** [sync_queue.status]: TEXT with CHECK (status IN ('pending', 'synced',
    'failed')). *)
Inductive Status := Pending | Synced | Failed.

(** One row of [public.sync_queue] (the [SyncQueueItem] interface). *)
Record QueueItem := mkItem {
  id : nat;
  user_id : nat;
  operation : Operation;
  table_name : string;
  record_data : Json;
  status : Status;
  error_message : option string;
  attempts : Z;
  created_at : Z;
  synced_at : option Z
}.

(** A row of any other table is a JSON object. *)
Abbreviation Row := (list (string * Json)).

Inductive Verb := v_select | v_insert | v_update | v_delete.

(** A request of the client: the table, the verb and the value of the
    [.eq] filter on the key column, when there is one. *)
Record Call := mkCall {
  call_table : string;
  call_verb : Verb;
  call_key : option Json
}.

(** What the environment does to a request.  The client resolves with
    [{ data, error }]; [ReplyError] is a populated [error], [Throws] a
    rejected promise. *)
Inductive Fault := NoFault | ReplyError (message : string) | Throws (message : string).

Record Reply (A : Type) := mkReply {
  data : option A;
  error : option string
}.
Arguments mkReply {A} _ _.
Arguments data {A} _.
Arguments error {A} _.

Record World := mkWorld {
  auth_user : option nat;          (* supabase.auth.getUser() *)
  isOnline : bool;                 (* SyncService.isOnline *)
  net_isConnected : option bool;   (* (await NetInfo.fetch()).isConnected *)
  fault : Call -> Fault;
  clock : Z;
  next_uuid : nat;                 (* gen_random_uuid() *)
  sync_queue : list QueueItem;
  tables : gmap string (list Row);
  last_sync_time : option Z;       (* AsyncStorage 'last_sync_time' *)
  trace : list Call;               (* ghost: requests sent so far *)
  transitions : list (nat * Status * Status)
                                   (* ghost: status changes of queue rows *)
}.

Definition set_clock (t : Z) (w : World) : World :=
  mkWorld (auth_user w) (isOnline w) (net_isConnected w) (fault w) t
    (next_uuid w) (sync_queue w) (tables w) (last_sync_time w) (trace w)
    (transitions w).

Definition set_next_uuid (n : nat) (w : World) : World :=
  mkWorld (auth_user w) (isOnline w) (net_isConnected w) (fault w) (clock w)
    n (sync_queue w) (tables w) (last_sync_time w) (trace w) (transitions w).

Definition set_sync_queue (q : list QueueItem) (w : World) : World :=
  mkWorld (auth_user w) (isOnline w) (net_isConnected w) (fault w) (clock w)
    (next_uuid w) q (tables w) (last_sync_time w) (trace w) (transitions w).

Definition set_tables (t : gmap string (list Row)) (w : World) : World :=
  mkWorld (auth_user w) (isOnline w) (net_isConnected w) (fault w) (clock w)
    (next_uuid w) (sync_queue w) t (last_sync_time w) (trace w)
    (transitions w).

Definition set_last_sync_time (t : option Z) (w : World) : World :=
  mkWorld (auth_user w) (isOnline w) (net_isConnected w) (fault w) (clock w)
    (next_uuid w) (sync_queue w) (tables w) t (trace w) (transitions w).

Definition set_trace (l : list Call) (w : World) : World :=
  mkWorld (auth_user w) (isOnline w) (net_isConnected w) (fault w) (clock w)
    (next_uuid w) (sync_queue w) (tables w) (last_sync_time w) l
    (transitions w).

Definition set_transitions (l : list (nat * Status * Status)) (w : World) : World :=
  mkWorld (auth_user w) (isOnline w) (net_isConnected w) (fault w) (clock w)
    (next_uuid w) (sync_queue w) (tables w) (last_sync_time w) (trace w) l.

(** ** State and exception monad *)

Inductive Res (A : Type) := Val (a : A) | Exn (message : string).
Arguments Val {A} _.
Arguments Exn {A} _.

Definition M (A : Type) : Type := World -> Res A * World.

Definition ret {A} (a : A) : M A := fun w => (Val a, w).

Definition throw {A} (message : string) : M A := fun w => (Exn message, w).

Definition bind {A B} (m : M A) (k : A -> M B) : M B :=
  fun w => match m w with
           | (Val a, w') => k a w'
           | (Exn e, w') => (Exn e, w')
           end.

(** [try { m } catch (error) { h error.message }] *)
Definition try_catch {A} (m : M A) (h : string -> M A) : M A :=
  fun w => match m w with
           | (Val a, w') => (Val a, w')
           | (Exn e, w') => h e w'
           end.

Notation "x <- m ;; k" := (bind m (fun x => k))
  (at level 90, m at level 80, right associativity, only parsing).
Notation "m ;;; k" := (bind m (fun _ => k))
  (at level 90, right associativity, only parsing).

(** [new Date()], [Date.now()] and the database's [NOW()]: the clock is
    read and moves on. *)
Definition now : M Z :=
  fun w => (Val (clock w), set_clock (clock w + 1)%Z w).

Definition gen_random_uuid : M nat :=
  fun w => (Val (next_uuid w), set_next_uuid (S (next_uuid w)) w).

(** [supabase.auth.getUser()], destructured to [data.user]. *)
Definition getUser : M (option nat) := fun w => (Val (auth_user w), w).

(** Every request goes through here: it is logged, then the environment
    may reject the promise, answer with an error, or let the store run. *)
Definition request {A} (c : Call) (run : M (Reply A)) : M (Reply A) :=
  fun w =>
    let w1 := set_trace (trace w ++ [c]) w in
    match fault w c with
    | Throws e => (Exn e, w1)
    | ReplyError e => (Val (mkReply None (Some e)), w1)
    | NoFault => run w1
    end.

(** ** The hosted store

    The store is an external collaborator; what follows is its model, not
    code of the repository.  [sync_queue] is kept as typed rows, every
    other table as a list of JSON objects; operations queued against
    [sync_queue] itself are outside the model (it is not one of [tables]). *)

Definition sync_queue_table : string := "sync_queue".

Definition Status_eqb (a b : Status) : bool :=
  match a, b with
  | Pending, Pending | Synced, Synced | Failed, Failed => true
  | _, _ => false
  end.

(** Equality as the [.eq] filter sees it, on scalar values. *)
Definition json_eqb (a b : Json) : bool :=
  match a, b with
  | JNull, JNull => true
  | JNum x, JNum y => Z.eqb x y
  | JStr x, JStr y => String.eqb x y
  | JUuid x, JUuid y => Nat.eqb x y
  | _, _ => false
  end.

Definition ok_reply {A} (a : A) : Reply A := mkReply (Some a) None.
Definition error_reply {A} (e : string) : Reply A := mkReply None (Some e).

(** *** Row level security of [sync_queue]

    All four policies are [auth.uid() = user_id]. *)
Definition visible (w : World) (r : QueueItem) : bool :=
  match auth_user w with
  | Some a => Nat.eqb (user_id r) a
  | None => false
  end.

Definition created_le (a b : QueueItem) : Prop := (created_at a <= created_at b)%Z.

#[global] Instance created_le_dec : RelDecision created_le :=
  fun a b => Z_le_dec (created_at a) (created_at b).

Definition is_pending_of (u : nat) (r : QueueItem) : bool :=
  Nat.eqb (user_id r) u && Status_eqb (status r) Pending.

(** [.select('*').eq('user_id', u).eq('status', 'pending')
     .order('created_at', { ascending: true })] *)
Definition fetch_pending (u : nat) (w : World) : list QueueItem :=
  merge_sort created_le
    (List.filter (fun r => visible w r && is_pending_of u r) (sync_queue w)).

Definition sq_select_pending (u : nat) : M (Reply (list QueueItem)) :=
  request (mkCall sync_queue_table v_select None)
    (fun w => (Val (ok_reply (fetch_pending u w)), w)).

(** The object literal handed to [.update]: only the listed columns
    change. *)
Record Patch := mkPatch {
  p_status : option Status;
  p_error_message : option (option string);
  p_attempts : option Z;
  p_synced_at : option (option Z)
}.

Definition apply_patch (p : Patch) (r : QueueItem) : QueueItem :=
  mkItem (id r) (user_id r) (operation r) (table_name r) (record_data r)
    (default (status r) (p_status p))
    (default (error_message r) (p_error_message p))
    (default (attempts r) (p_attempts p))
    (created_at r)
    (default (synced_at r) (p_synced_at p)).

Definition hit (w : World) (i : nat) (r : QueueItem) : bool :=
  visible w r && Nat.eqb (id r) i.

Definition status_changes (w : World) (i : nat) (p : Patch)
    : list (nat * Status * Status) :=
  flat_map
    (fun r =>
       if hit w i r && negb (Status_eqb (status r) (status (apply_patch p r)))
       then [(id r, status r, status (apply_patch p r))] else [])
    (sync_queue w).

(** [.from('sync_queue').update(p).eq('id', i)] *)
Definition sq_update (p : Patch) (i : nat) : M (Reply unit) :=
  request (mkCall sync_queue_table v_update (Some (JUuid i)))
    (fun w =>
       (Val (ok_reply tt),
        set_transitions (transitions w ++ status_changes w i p)
          (set_sync_queue
             (map (fun r => if hit w i r then apply_patch p r else r)
                (sync_queue w)) w))).

(** [.from('sync_queue').insert({ user_id, operation, table_name,
    record_data }).select().single()]; the other columns take their
    defaults. *)
Definition sq_insert (u : nat) (op : Operation) (t : string) (d : Json)
    : M (Reply QueueItem) :=
  request (mkCall sync_queue_table v_insert None)
    (fun w =>
       match auth_user w, d with
       | Some a, JNull =>
           (Val (error_reply "null value in column record_data"), w)
       | Some a, _ =>
           if Nat.eqb a u then
             let row := mkItem (next_uuid w) u op t d Pending None 0%Z (clock w) None in
             (Val (ok_reply row),
              set_clock (clock w + 1)%Z
                (set_next_uuid (S (next_uuid w))
                   (set_sync_queue (sync_queue w ++ [row]) w)))
           else (Val (error_reply "new row violates row-level security policy"), w)
       | None, _ =>
           (Val (error_reply "new row violates row-level security policy"), w)
       end).

(** [.from('sync_queue').delete().eq('user_id', u).eq('status', 'synced')] *)
Definition sq_delete_synced (u : nat) : M (Reply unit) :=
  request (mkCall sync_queue_table v_delete None)
    (fun w =>
       (Val (ok_reply tt),
        set_sync_queue
          (List.filter
             (fun r => negb (visible w r && Nat.eqb (user_id r) u
                             && Status_eqb (status r) Synced))
             (sync_queue w)) w)).

(** *** The other tables *)

Definition get_field (k : string) (r : Row) : option Json :=
  snd <$> List.find (fun kv => String.eqb (fst kv) k) r.

Definition set_field (k : string) (v : Json) (r : Row) : Row :=
  if existsb (fun kv => String.eqb (fst kv) k) r
  then map (fun kv => if String.eqb (fst kv) k then (k, v) else kv) r
  else r ++ [(k, v)].

Definition merge_fields (upd r : Row) : Row :=
  fold_left (fun acc kv => set_field (fst kv) (snd kv) acc) upd r.

(** [.eq(col, k)]; an [undefined] filter value selects no row. *)
Definition matches (col : string) (k : option Json) (r : Row) : bool :=
  match get_field col r, k with
  | Some v, Some k' => json_eqb v k'
  | _, _ => false
  end.

(** [record_data.id]: reading a property of [null] is a TypeError, of any
    other value without that property [undefined]. *)
Definition prop_id (d : Json) : M (option Json) :=
  match d with
  | JNull => throw "TypeError: Cannot read properties of null (reading 'id')"
  | JObj fs => ret (get_field "id" fs)
  | _ => ret None
  end.

Definition body_id (d : Json) : option Json :=
  match d with
  | JObj fs => get_field "id" fs
  | _ => None
  end.

(** [.from(t).insert(d)]: the row is appended, with a generated [id] when
    the record has none; an [id] already present in the table is refused. *)
Definition tbl_insert (t : string) (d : Json) : M (Reply Row) :=
  request (mkCall t v_insert (body_id d))
    (fun w =>
       match tables w !! t, d with
       | None, _ => (Val (error_reply "relation does not exist"), w)
       | Some rows, JObj fs =>
           match get_field "id" fs with
           | Some k =>
               if existsb (matches "id" (Some k)) rows
               then (Val (error_reply "duplicate key value violates unique constraint"), w)
               else (Val (ok_reply fs), set_tables (<[t := rows ++ [fs]]> (tables w)) w)
           | None =>
               let row := ("id", JUuid (next_uuid w)) :: fs in
               (Val (ok_reply row),
                set_next_uuid (S (next_uuid w))
                  (set_tables (<[t := rows ++ [row]]> (tables w)) w))
           end
       | Some _, _ => (Val (error_reply "invalid input for insert"), w)
       end).

(** [.from(t).update(d).eq('id', k)]: every row with that [id] takes the
    fields of [d]; no such row is not an error. *)
Definition tbl_update (t : string) (d : Json) (k : option Json) : M (Reply unit) :=
  request (mkCall t v_update k)
    (fun w =>
       match tables w !! t, d with
       | None, _ => (Val (error_reply "relation does not exist"), w)
       | Some rows, JObj fs =>
           (Val (ok_reply tt),
            set_tables
              (<[t := map (fun r => if matches "id" k r then merge_fields fs r else r) rows]>
                 (tables w)) w)
       | Some _, _ => (Val (error_reply "invalid input for update"), w)
       end).

(** [.from(t).delete().eq('id', k)] *)
Definition tbl_delete (t : string) (k : option Json) : M (Reply unit) :=
  request (mkCall t v_delete k)
    (fun w =>
       match tables w !! t with
       | None => (Val (error_reply "relation does not exist"), w)
       | Some rows =>
           (Val (ok_reply tt),
            set_tables
              (<[t := List.filter (fun r => negb (matches "id" k r)) rows]>
                 (tables w)) w)
       end).

(** [.from(t).select('*').eq(col, k).single()]: exactly one row, or an
    error. *)
Definition tbl_select_single (t col : string) (k : option Json) : M (Reply Row) :=
  request (mkCall t v_select k)
    (fun w =>
       match tables w !! t with
       | None => (Val (error_reply "relation does not exist"), w)
       | Some rows =>
           match List.filter (matches col k) rows with
           | [r] => (Val (ok_reply r), w)
           | _ => (Val (error_reply "JSON object requested, multiple (or no) rows returned"), w)
           end
       end).

(** ** supabasecliente.js: offline sync helpers *)

Record SyncResult := mkResult { processed : nat; failed : nat }.

(** [queueOfflineOperation(operation, tableName, recordData)] *)
Definition queueOfflineOperation (op : Operation) (tableName : string)
    (recordData : Json) : M (option QueueItem) :=
  user <- getUser ;;
  match user with
  | None => throw "User not authenticated"
  | Some u =>
      r <- sq_insert u op tableName recordData ;;
      match error r with
      | Some e => throw e
      | None => ret (data r)
      end
  end.

(** The three branches on [item.operation]; the replies are dropped. *)
Definition replay (item : QueueItem) : M unit :=
  match operation item with
  | op_insert =>
      tbl_insert (table_name item) (record_data item) ;;; ret tt
  | op_update =>
      k <- prop_id (record_data item) ;;
      tbl_update (table_name item) (record_data item) k ;;; ret tt
  | op_delete =>
      k <- prop_id (record_data item) ;;
      tbl_delete (table_name item) k ;;; ret tt
  end.

(** [{ status: 'synced', synced_at: new Date().toISOString() }] *)
Definition synced_patch (t : Z) : Patch :=
  mkPatch (Some Synced) None None (Some (Some t)).

(** [{ status: 'failed', error_message: error.message,
       attempts: item.attempts + 1 }] *)
Definition failed_patch (item : QueueItem) (message : string) : Patch :=
  mkPatch (Some Failed) (Some (Some message)) (Some (attempts item + 1)%Z) None.

Definition mark_synced (item : QueueItem) : M unit :=
  t <- now ;;
  sq_update (synced_patch t) (id item) ;;;
  ret tt.

Definition mark_failed (item : QueueItem) (message : string) : M unit :=
  sq_update (failed_patch item message) (id item) ;;;
  ret tt.

(** The body of the [for] loop: [true] when [processed++] ran, [false]
    when [failed++] ran. *)
Definition process_item (item : QueueItem) : M bool :=
  try_catch
    (replay item ;;; mark_synced item ;;; ret true)
    (fun message => mark_failed item message ;;; ret false).

Fixpoint process_items (items : list QueueItem) (processed failed : nat)
    : M SyncResult :=
  match items with
  | [] => ret (mkResult processed failed)
  | item :: rest =>
      done <- process_item item ;;
      if done : bool then process_items rest (S processed) failed
      else process_items rest processed (S failed)
  end.

(** [processSyncQueue()] *)
Definition processSyncQueue : M SyncResult :=
  user <- getUser ;;
  match user with
  | None => ret (mkResult 0 0)
  | Some u =>
      r <- sq_select_pending u ;;
      match error r with
      | Some e => throw e
      | None => process_items (default [] (data r)) 0 0
      end
  end.

(** ** SyncService (services/missionService.ts) *)

Module SyncService.

Definition setLastSyncTime : M unit :=
  t <- now ;;
  fun w => (Val tt, set_last_sync_time (Some t) w).

(** [syncNow()] *)
Definition syncNow : M SyncResult :=
  fun w =>
    if negb (isOnline w) then (Val (mkResult 0 0), w)
    else
      try_catch
        (result <- processSyncQueue ;;
         setLastSyncTime ;;;
         ret result)
        (fun _ => ret (mkResult 0 0)) w.

(** [{ status: 'pending', attempts: 0, error_message: null }] *)
Definition retry_patch : Patch :=
  mkPatch (Some Pending) (Some None) (Some 0%Z) None.

(** [retryFailedItem(itemId)] *)
Definition retryFailedItem (itemId : nat) : M unit :=
  r <- sq_update retry_patch itemId ;;
  match error r with
  | Some e => throw e
  | None => syncNow ;;; ret tt
  end.

(** [clearSyncedItems()] *)
Definition clearSyncedItems : M unit :=
  user <- getUser ;;
  match user with
  | None => ret tt
  | Some u =>
      r <- sq_delete_synced u ;;
      match error r with
      | Some e => throw e
      | None => ret tt
      end
  end.

End SyncService.

(** ** JavaScript values

    [None] stands for [undefined]. *)

(** The operands for which [x || y] yields [y]. *)
Definition falsy (v : option Json) : bool :=
  match v with
  | None | Some JNull => true
  | Some (JNum z) => Z.eqb z 0
  | Some (JStr s) => String.eqb s ""
  | Some _ => false
  end.

Definition js_or (v : option Json) (d : Json) : Json :=
  if falsy v then d else default d v.

(** [v.k] *)
Definition prop (k : string) (v : option Json) : M (option Json) :=
  match v with
  | None => throw "TypeError: Cannot read properties of undefined"
  | Some JNull => throw "TypeError: Cannot read properties of null"
  | Some (JObj fs) => ret (get_field k fs)
  | Some _ => ret None
  end.

(** [v[0]] *)
Definition index0 (v : option Json) : M (option Json) :=
  match v with
  | None => throw "TypeError: Cannot read properties of undefined"
  | Some JNull => throw "TypeError: Cannot read properties of null"
  | Some (JArr (x :: _)) => ret (Some x)
  | Some _ => ret None
  end.

(** [v?.[0]?.k] *)
Definition opt_index0_prop (k : string) (v : option Json) : option Json :=
  match v with
  | Some (JArr (JObj fs :: _)) => get_field k fs
  | _ => None
  end.

(** An object literal; properties whose value is [undefined] do not reach
    the store. *)
Definition object (l : list (string * option Json)) : Row :=
  omap (fun kv => pair (fst kv) <$> snd kv) l.

(** ** ImageService (services/annotationService.ts, second half) *)

Module ImageService.

(** [getOrCreateImage(nasaItem)] *)
Definition getOrCreateImage (nasaItem : Json) : M (option Row) :=
  d <- prop "data" (Some nasaItem) ;;
  d0 <- index0 d ;;
  nasaId <- prop "nasa_id" d0 ;;
  existing <- tbl_select_single "images" "nasa_id" nasaId ;;
  match data existing with
  | Some row => ret (Some row)
  | None =>
      title <- prop "title" d0 ;;
      description <- prop "description" d0 ;;
      links <- prop "links" (Some nasaItem) ;;
      date_created <- prop "date_created" d0 ;;
      center <- prop "center" d0 ;;
      keywords <- prop "keywords" d0 ;;
      let imageData :=
        object
          [("nasa_id", nasaId);
           ("title", title);
           ("description", description);
           ("thumbnail_url", opt_index0_prop "href" links);
           ("high_res_url", opt_index0_prop "href" links);
           ("source", Some nasaItem);
           ("metadata",
            Some (JObj (object
              [("date", date_created);
               ("center", center);
               ("keywords", Some (js_or keywords (JArr [])))])))] in
      r <- tbl_insert "images" (JObj imageData) ;;
      match error r with
      | Some e => throw e
      | None => ret (data r)
      end
  end.

End ImageService.

(** ** AnnotationServiceV2 *)

Inductive AnnotationType :=
| at_text | at_rectangle | at_circle | at_polygon | at_freehand | at_point.

Definition annotation_type_name (t : AnnotationType) : string :=
  match t with
  | at_text => "text"
  | at_rectangle => "rectangle"
  | at_circle => "circle"
  | at_polygon => "polygon"
  | at_freehand => "freehand"
  | at_point => "point"
  end.

Record AnnotationData := mkAnnotationData {
  bbox : option Json;
  label : option string;
  annotation_type : AnnotationType;
  text : option string;
  properties : option Json;
  color : option string
}.

Module AnnotationServiceV2.

Definition NetInfo_fetch : M (option bool) :=
  fun w => (Val (net_isConnected w), w).

(** The [insertData] literal of [createAnnotation]. *)
Definition insertData (image_id : option Json) (u : nat)
    (annotationData : AnnotationData) : Row :=
  object
    [("image_id", image_id);
     ("user_id", Some (JUuid u));
     ("bbox", bbox annotationData);
     ("label", JStr <$> label annotationData);
     ("annotation_type",
      Some (JStr (annotation_type_name (annotation_type annotationData))));
     ("text", JStr <$> text annotationData);
     ("properties", Some (js_or (properties annotationData) (JObj [])));
     ("color", Some (js_or (JStr <$> color annotationData) (JStr "#FFFFFF")));
     ("source", Some (JStr "user"))].

(** [createAnnotation(nasaItem, annotationData)] *)
Definition createAnnotation (nasaItem : Json) (annotationData : AnnotationData)
    : M (option Row) :=
  user <- getUser ;;
  match user with
  | None => throw "User not authenticated"
  | Some u =>
      netInfo <- NetInfo_fetch ;;
      image <- ImageService.getOrCreateImage nasaItem ;;
      image_id <- prop "id" (JObj <$> image) ;;
      let record := insertData image_id u annotationData in
      if negb (default false netInfo) then
        queueOfflineOperation op_insert "annotations" (JObj record) ;;;
        t0 <- now ;;
        t1 <- now ;;
        t2 <- now ;;
        ret (Some (("id", JStr ("temp-" +:+ pretty t0)) :: record
                   ++ [("created_at", JNum t1); ("updated_at", JNum t2)]))
      else
        r <- tbl_insert "annotations" (JObj record) ;;
        match error r with
        | Some e => throw e
        | None => ret (data r)
        end
  end.

End AnnotationServiceV2.

(** ** Vocabulary of the statements *)

(** The requests on [sync_queue] itself are answered by the store. *)
Definition queue_reliable (w : World) : Prop :=
  forall c, call_table c = sync_queue_table -> fault w c = NoFault.



Definition find_item (i : nat) (q : list QueueItem) : option QueueItem :=
  List.find (fun r => Nat.eqb (id r) i) q.

Definition patched (w : World) (i : nat) (p : Patch) (r : QueueItem) : QueueItem :=
  if hit w i r then apply_patch p r else r.

(** The world after the store has applied [.update(p).eq('id', i)]. *)
Definition updated (p : Patch) (i : nat) (w : World) : World :=
  set_transitions (transitions w ++ status_changes w i p)
    (set_sync_queue (map (patched w i p) (sync_queue w))
       (set_trace (trace w ++ [mkCall sync_queue_table v_update (Some (JUuid i))]) w)).

(** The request a replay sends, if it gets as far as sending one. *)
Definition replay_calls (item : QueueItem) : list Call :=
  match operation item, record_data item with
  | op_insert, d => [mkCall (table_name item) v_insert (body_id d)]
  | _, JNull => []
  | op_update, d => [mkCall (table_name item) v_update (body_id d)]
  | op_delete, d => [mkCall (table_name item) v_delete (body_id d)]
  end.

Definition mark_call (item : QueueItem) : Call :=
  mkCall sync_queue_table v_update (Some (JUuid (id item))).

Definition item_calls (item : QueueItem) : list Call :=
  replay_calls item ++ [mark_call item].



(** A failed row carries its failure. *)
Definition failed_wf (q : list QueueItem) : Prop :=
  forall r, r ∈ q ->
    (0 <= attempts r)%Z /\
    (status r = Failed -> (1 <= attempts r)%Z /\ error_message r <> None).

(** *** Sequences of operations *)

Inductive Op :=
| Enqueue (op : Operation) (t : string) (d : Json)
| DrainQueue
| SyncNow
| RetryFailedItem (i : nat)
| ClearSyncedItems
| Environment (a : option nat) (online : bool) (f : Call -> Fault).

Definition set_environment (a : option nat) (online : bool) (f : Call -> Fault)
    (w : World) : World :=
  mkWorld a online (net_isConnected w) f (clock w) (next_uuid w) (sync_queue w)
    (tables w) (last_sync_time w) (trace w) (transitions w).

(** An operation leaves the world it reached, whether it returned or
    raised. *)
Definition step (o : Op) (w : World) : World :=
  match o with
  | Enqueue op t d => snd (queueOfflineOperation op t d w)
  | DrainQueue => snd (processSyncQueue w)
  | SyncNow => snd (SyncService.syncNow w)
  | RetryFailedItem i => snd (SyncService.retryFailedItem i w)
  | ClearSyncedItems => snd (SyncService.clearSyncedItems w)
  | Environment a online f => set_environment a online f w
  end.

Definition run (ops : list Op) (w : World) : World := fold_left (fun w o => step o w) ops w.



(** What the bookkeeping reads and writes, and what the replays read and
    write. *)
Definition queue_side (w : World) :=
  (auth_user w, isOnline w, net_isConnected w, fault w, clock w,
   sync_queue w, last_sync_time w, transitions w).


(** The world a returned replay is followed by, and the one a raised
    replay is followed by, when the bookkeeping request is answered. *)
Definition after_replay (item : QueueItem) (out : Res unit * World) : World :=
  match out with
  | (Val _, w1) =>
      updated (synced_patch (clock w1)) (id item) (set_clock (clock w1 + 1)%Z w1)
  | (Exn m, w1) => updated (failed_patch item m) (id item) w1
  end.

Definition drained (items : list QueueItem) (w : World) : World :=
  fold_left (fun w item => after_replay item (replay item w)) items w.


Definition select_call : Call := mkCall sync_queue_table v_select None.

(** ** Sample worlds *)

Module Sample.

Definition alice : nat := 7.
Definition bob : nat := 8.

(** An update of a row that the [annotations] table does not hold. *)
Definition edit_gone : QueueItem :=
  mkItem 1 alice op_update "annotations"
    (JObj [("id", JUuid 40); ("label", JStr "crater")]) Pending None 0 10 None.

Definition add_label : QueueItem :=
  mkItem 2 alice op_insert "annotations"
    (JObj [("label", JStr "dune")]) Pending None 0 5 None.

Definition bobs_insert : QueueItem :=
  mkItem 3 bob op_insert "annotations"
    (JObj [("label", JStr "ridge")]) Pending None 0 1 None.

Definition remove_old : QueueItem :=
  mkItem 4 alice op_delete "annotations"
    (JObj [("id", JUuid 41)]) Pending None 0 7 None.

Definition done_before : QueueItem :=
  mkItem 5 alice op_insert "annotations"
    (JObj [("label", JStr "plain")]) Synced None 0 0 (Some 3%Z).

Definition broke_before : QueueItem :=
  mkItem 6 alice op_insert "annotations"
    (JObj [("id", JUuid 41); ("label", JStr "rille")]) Failed
    (Some "Network request failed") 1 2 None.

Definition queue : list QueueItem :=
  [edit_gone; add_label; bobs_insert; remove_old; done_before; broke_before].

Definition store : gmap string (list Row) :=
  {[ "annotations" := [[("id", JUuid 41); ("label", JStr "mare")]];
     "images" := [] ]}.

(** Deletions on [annotations] are rejected; everything else goes
    through. *)
Definition deletes_rejected (c : Call) : Fault :=
  if String.eqb (call_table c) "annotations" then
    match call_verb c with
    | v_delete => Throws "Network request failed"
    | _ => NoFault
    end
  else NoFault.

(** No request reaches the store. *)
Definition unreachable (c : Call) : Fault := ReplyError "Network request failed".

Definition all_fine (c : Call) : Fault := NoFault.

Definition world (user : option nat) (online : bool) (f : Call -> Fault) : World :=
  mkWorld user online (Some online) f 100 50 queue store None [] [].

Definition online_world : World := world (Some alice) true deletes_rejected.
Definition calm_world : World := world (Some alice) true all_fine.
Definition offline_world : World := world (Some alice) false all_fine.
Definition cut_off_world : World := world (Some alice) false unreachable.
Definition signed_out_world : World := world None true all_fine.

Definition nasa_item : Json :=
  JObj [("data", JArr [JObj [("nasa_id", JStr "PIA00001"); ("title", JStr "Olympus Mons")]]);
        ("links", JArr [JObj [("href", JStr "https://images.example/PIA00001.jpg")]])].

Definition annotation : AnnotationData :=
  mkAnnotationData None (Some "caldera") at_point None None None.

End Sample.

Definition delete_call : Call := mkCall sync_queue_table v_delete None.
Definition insert_call : Call := mkCall sync_queue_table v_insert None.










(** Computations that leave the queue side of the world alone. *)
Definition quiet {A} (m : M A) : Prop :=
  forall w, queue_side (snd (m w)) = queue_side w.

(** No request is answered by the store. *)
Definition store_unreachable (w : World) : Prop :=
  forall c, fault w c <> NoFault.

(** ** SyncService: queries on the queue (services/missionService.ts) *)

Definition set_isOnline (b : bool) (w : World) : World :=
  mkWorld (auth_user w) b (net_isConnected w) (fault w) (clock w)
    (next_uuid w) (sync_queue w) (tables w) (last_sync_time w) (trace w)
    (transitions w).

(** [.select('*', { count: 'exact', head: true }).eq('user_id', u)
     .eq('status', 'pending')]: the reply carries the count. *)
Definition sq_count_pending (u : nat) : M (Reply nat) :=
  request select_call
    (fun w =>
       (Val (ok_reply
               (length (List.filter (fun r => visible w r && is_pending_of u r)
                          (sync_queue w)))), w)).

Definition created_ge (a b : QueueItem) : Prop := (created_at b <= created_at a)%Z.

#[global] Instance created_ge_dec : RelDecision created_ge :=
  fun a b => Z_le_dec (created_at b) (created_at a).

Definition is_failed_of (u : nat) (r : QueueItem) : bool :=
  Nat.eqb (user_id r) u && Status_eqb (status r) Failed.

(** [.select('*').eq('user_id', u).eq('status', 'failed')
     .order('created_at', { ascending: false })] *)
Definition fetch_failed (u : nat) (w : World) : list QueueItem :=
  merge_sort created_ge
    (List.filter (fun r => visible w r && is_failed_of u r) (sync_queue w)).

Definition sq_select_failed (u : nat) : M (Reply (list QueueItem)) :=
  request select_call (fun w => (Val (ok_reply (fetch_failed u w)), w)).


Module SyncServiceQueries.

(** [getPendingSyncCount()] *)
Definition getPendingSyncCount : M nat :=
  user <- getUser ;;
  match user with
  | None => ret 0
  | Some u =>
      r <- sq_count_pending u ;;
      match error r with
      | Some _ => ret 0
      | None => ret (default 0 (data r))
      end
  end.

(** [getFailedSyncItems()] *)
Definition getFailedSyncItems : M (list QueueItem) :=
  user <- getUser ;;
  match user with
  | None => ret []
  | Some u =>
      r <- sq_select_failed u ;;
      match error r with
      | Some _ => ret []
      | None => ret (default [] (data r))
      end
  end.



(** The handler given to [NetInfo.addEventListener] in [initialize()].  The
    sync it starts is not awaited; it is taken here to run on its own. *)
Definition netInfoListener (isConnected : option bool) : M unit :=
  fun w =>
    let wasOffline := negb (isOnline w) in
    let w1 := set_isOnline (default false isConnected) w in
    if wasOffline && isOnline w1 then (SyncService.syncNow ;;; ret tt) w1
    else (Val tt, w1).

(** The callback given to [setInterval] in [startPeriodicSync()]. *)
Definition periodicSync : M unit :=
  fun w => if isOnline w then (SyncService.syncNow ;;; ret tt) w else (Val tt, w).

End SyncServiceQueries.

(** [syncNow] of the application context (context/AppContext.tsx): the
    value is the payload dispatched as [SET_PENDING_SYNC]. *)
Module AppContext.

Definition syncNow : M nat :=
  SyncService.syncNow ;;;
  SyncServiceQueries.getPendingSyncCount.

End AppContext.

(** ** SyncService: the periodic timer

    The interval timers of the runtime are a table of live handles;
    [syncInterval] is the static field of the service. *)

Record Service := mkService {
  syncInterval : option nat;
  intervals : list nat;
  next_interval : nat
}.

Definition setInterval (s : Service) : nat * Service :=
  (next_interval s,
   mkService (syncInterval s) (intervals s ++ [next_interval s])
     (S (next_interval s))).

Definition clearInterval (h : nat) (s : Service) : Service :=
  mkService (syncInterval s)
    (List.filter (fun i => negb (Nat.eqb i h)) (intervals s)) (next_interval s).

Definition set_syncInterval (h : option nat) (s : Service) : Service :=
  mkService h (intervals s) (next_interval s).

(** [if (this.syncInterval)]: the field holds [null] or a handle, which is
    a number, and 0 is falsy. *)
Definition truthy_handle (h : option nat) : option nat :=
  match h with
  | Some (S n) => Some (S n)
  | _ => None
  end.

Module SyncServiceTimer.

(** [startPeriodicSync()] *)
Definition startPeriodicSync (s : Service) : Service :=
  let s1 := match truthy_handle (syncInterval s) with
            | Some h => clearInterval h s
            | None => s
            end in
  let (h, s2) := setInterval s1 in
  set_syncInterval (Some h) s2.

(** [stopPeriodicSync()] *)
Definition stopPeriodicSync (s : Service) : Service :=
  match truthy_handle (syncInterval s) with
  | Some h => set_syncInterval None (clearInterval h s)
  | None => s
  end.

End SyncServiceTimer.

Inductive TimerOp := StartPeriodicSync | StopPeriodicSync.

Definition timer_step (o : TimerOp) (s : Service) : Service :=
  match o with
  | StartPeriodicSync => SyncServiceTimer.startPeriodicSync s
  | StopPeriodicSync => SyncServiceTimer.stopPeriodicSync s
  end.

Definition timer_run (ops : list TimerOp) (s : Service) : Service :=
  fold_left (fun s o => timer_step o s) ops s.

(** The timers of the runtime are the ones others started, [others], and
    the one of the service if it has one; handles are positive and never
    reused. *)
Definition owns_at_most_one (others : list nat) (s : Service) : Prop :=
  intervals s = others ++ option_list (syncInterval s)
  /\ 0 < next_interval s
  /\ (forall h, h ∈ intervals s -> 0 < h < next_interval s)
  /\ (forall h, syncInterval s = Some h -> h ∉ others).



(** ** ImageService: lookup by NASA id (services/annotationService.ts) *)

Module ImageServiceQueries.


End ImageServiceQueries.



(** ** AnnotationServiceV2: changing and removing an annotation *)

(** *** Row level security of [annotations]

    [annotations_update_own] and [annotations_delete_own] are both
    [auth.uid() = user_id]. *)
Definition own_row (w : World) (r : Row) : bool :=
  match auth_user w with
  | Some a => matches "user_id" (Some (JUuid a)) r
  | None => false
  end.

Definition own_hit (w : World) (k : nat) (r : Row) : bool :=
  own_row w r && matches "id" (Some (JUuid k)) r.

(** [.from('annotations').update(d).eq('id', k).select().single()]: the
    rows the actor may update and that carry the id take the fields of
    [d]; the trigger [set_annotations_updated_at] stamps them; the written
    row must still satisfy the policy.  [.single()] wants exactly one row
    back.  [id] is the primary key, so at most one row is hit.  The
    constraints on the other columns are outside the model. *)
Definition annotations_update_single (d : Row) (k : nat) : M (Reply Row) :=
  request (mkCall "annotations" v_update (Some (JUuid k)))
    (fun w =>
       match tables w !! "annotations" with
       | None => (Val (error_reply "relation does not exist"), w)
       | Some rows =>
           let write r := set_field "updated_at" (JNum (clock w)) (merge_fields d r) in
           match List.filter (own_hit w k) rows with
           | [r] =>
               if own_row w (write r) then
                 (Val (ok_reply (write r)),
                  set_clock (clock w + 1)%Z
                    (set_tables
                       (<["annotations" :=
                            map (fun r => if own_hit w k r then write r else r) rows]>
                          (tables w)) w))
               else
                 (Val (error_reply "new row violates row-level security policy"), w)
           | _ =>
               (Val (error_reply "JSON object requested, multiple (or no) rows returned"),
                w)
           end
       end).

(** [.from('annotations').delete().eq('id', k)]: the rows the actor may
    delete and that carry the id go; with them go the votes on that
    annotation ([annotation_votes.annotation_id ... ON DELETE CASCADE]) and
    the link of a converted proposal ([fk_ml_converted_annotation ... ON
    DELETE SET NULL]). *)
Definition annotations_delete (k : nat) : M (Reply unit) :=
  request (mkCall "annotations" v_delete (Some (JUuid k)))
    (fun w =>
       match tables w !! "annotations" with
       | None => (Val (error_reply "relation does not exist"), w)
       | Some rows =>
           let refers col r := matches col (Some (JUuid k)) r in
           let kept := <["annotations" :=
                           List.filter (fun r => negb (own_hit w k r)) rows]>
                         (tables w) in
           if existsb (own_hit w k) rows then
             (Val (ok_reply tt),
              set_tables
                (alter (map (fun p => if refers "converted_to_annotation_id" p
                                      then set_field "converted_to_annotation_id" JNull p
                                      else p))
                   "ml_proposals"
                   (alter (List.filter (fun v => negb (refers "annotation_id" v)))
                      "annotation_votes" kept)) w)
           else (Val (ok_reply tt), set_tables kept w)
       end).

Module AnnotationWrites.

(** [AnnotationServiceV2.updateAnnotation(annotationId, updates)] *)
Definition updateAnnotation (annotationId : nat) (updates : Row) : M (option Row) :=
  r <- annotations_update_single updates annotationId ;;
  match error r with
  | Some e => throw e
  | None => ret (data r)
  end.

(** [AnnotationServiceV2.deleteAnnotation(annotationId)] *)
Definition deleteAnnotation (annotationId : nat) : M unit :=
  r <- annotations_delete annotationId ;;
  match error r with
  | Some e => throw e
  | None => ret tt
  end.

End AnnotationWrites.

(** ** ConsensusService: the votes of the user *)

(** [.from('annotation_votes').select('vote').eq('user_id', u)]; the
    policy [annotation_votes_select] lets every row be read. *)
Definition votes_select_vote (u : nat) : M (Reply (list Row)) :=
  request (mkCall "annotation_votes" v_select (Some (JUuid u)))
    (fun w =>
       match tables w !! "annotation_votes" with
       | None => (Val (error_reply "relation does not exist"), w)
       | Some rows =>
           (Val (ok_reply
                   (map (fun r => object [("vote", get_field "vote" r)])
                      (List.filter (matches "user_id" (Some (JUuid u))) rows))),
            w)
       end).

Record VoteStats := mkVoteStats {
  total_votes : nat;
  confirms : nat;
  rejects : nat;
  neutrals : nat
}.

(** [v.vote === z] *)
Definition vote_is (z : Z) (v : Row) : bool :=
  match get_field "vote" v with
  | Some (JNum x) => Z.eqb x z
  | _ => false
  end.

Module ConsensusService.

(** [getUserVoteStats()] *)
Definition getUserVoteStats : M VoteStats :=
  user <- getUser ;;
  match user with
  | None => throw "User not authenticated"
  | Some u =>
      r <- votes_select_vote u ;;
      match error r with
      | Some e => throw e
      | None =>
          let votes := default [] (data r) in
          ret (mkVoteStats (length votes)
                 (length (List.filter (vote_is 1) votes))
                 (length (List.filter (vote_is (-1)) votes))
                 (length (List.filter (vote_is 0) votes)))
      end
  end.

End ConsensusService.

(** [vote SMALLINT NOT NULL CHECK (vote IN (-1, 0, 1))] *)
Definition vote_checked (r : Row) : Prop :=
  exists z, get_field "vote" r = Some (JNum z) /\ (z = -1 \/ z = 0 \/ z = 1)%Z.

(** * Properties *)

(** ** Requests and replays *)

Ltac run_monad :=
  unfold bind, ret, throw, try_catch, request, getUser, now in *; simpl in *.

Lemma replay_queue_side item w : queue_side (snd (replay item w)) = queue_side w.
Proof.
  unfold replay, prop_id, tbl_insert, tbl_update, tbl_delete; run_monad.
  repeat case_match; simplify_eq/=; try reflexivity.
Qed.

Lemma queue_side_fault w w' : queue_side w' = queue_side w -> fault w' = fault w.
Proof. unfold queue_side. congruence. Qed.

Lemma sq_update_cases p i w :
    sq_update p i w =
    match fault w (mkCall sync_queue_table v_update (Some (JUuid i))) with
    | NoFault => (Val (ok_reply tt), updated p i w)
    | ReplyError e =>
        (Val (error_reply e),
         set_trace (trace w ++ [mkCall sync_queue_table v_update (Some (JUuid i))]) w)
    | Throws e =>
        (Exn e,
         set_trace (trace w ++ [mkCall sync_queue_table v_update (Some (JUuid i))]) w)
    end.
Proof. unfold sq_update, request. by destruct (fault w _). Qed.

Lemma sq_update_reliable p i w :
    queue_reliable w -> sq_update p i w = (Val (ok_reply tt), updated p i w).
Proof. intros H. rewrite sq_update_cases, H; done. Qed.

Lemma queue_reliable_side w w' :
  queue_side w' = queue_side w -> queue_reliable w -> queue_reliable w'.
Proof. intros E H c Hc. rewrite (queue_side_fault _ _ E). auto. Qed.

Lemma process_item_reliable item w :
  queue_reliable w ->
  process_item item w =
  (Val (if fst (replay item w) is Val _ then true else false),
   after_replay item (replay item w)).
Proof.
  intros Hrel. unfold process_item, mark_synced, mark_failed, after_replay.
  pose proof (replay_queue_side item w) as Hs.
  unfold try_catch, bind at 1.
  destruct (replay item w) as [[[]|m] w1] eqn:E; simpl in Hs.
  - unfold bind, now, ret. simpl.
    rewrite sq_update_reliable; [done|].
    intros c Hc. simpl. rewrite (queue_side_fault _ _ Hs). auto.
  - unfold bind, ret. rewrite sq_update_reliable; [done|].
    eapply queue_reliable_side; eauto.
Qed.

(** ** Rows found by their key *)








(** ** The loop, when the bookkeeping is answered *)

Lemma after_replay_queue_side_fault item w :
  fault (after_replay item (replay item w)) = fault w.
Proof.
  pose proof (replay_queue_side item w) as Hs. apply queue_side_fault in Hs.
  unfold after_replay. by destruct (replay item w) as [[[]|m] w1].
Qed.


Lemma after_replay_reliable item w :
  queue_reliable w -> queue_reliable (after_replay item (replay item w)).
Proof. intros H c Hc. rewrite after_replay_queue_side_fault. auto. Qed.

Lemma process_items_reliable items : forall w p f,
  queue_reliable w ->
  exists a b,
    process_items items p f w = (Val (mkResult (p + a) (f + b)), drained items w)
    /\ a + b = length items.
Proof.
  induction items as [|item rest IH]; intros w p f Hrel.
  - exists 0, 0. simpl. unfold ret. by rewrite !Nat.add_0_r.
  - simpl. unfold bind. rewrite process_item_reliable by done.
    pose proof (after_replay_reliable item w Hrel) as Hrel'.
    destruct (fst (replay item w)) as [okv|msg].
    + destruct (IH (after_replay item (replay item w)) (S p) f Hrel')
        as (a & b & -> & Hab).
      exists (S a), b. split; [|lia]. by replace (p + S a) with (S p + a) by lia.
    + destruct (IH (after_replay item (replay item w)) p (S f) Hrel')
        as (a & b & -> & Hab).
      exists a, (S b). split; [|lia]. by replace (f + S b) with (S f + b) by lia.
Qed.



Lemma replay_trace item w :
  trace (snd (replay item w)) = trace w ++ replay_calls item.
Proof.
  unfold replay, replay_calls, prop_id, tbl_insert, tbl_update, tbl_delete; run_monad.
  repeat case_match; simplify_eq/=; try reflexivity; by rewrite app_nil_r.
Qed.

Lemma after_replay_trace item w :
  trace (after_replay item (replay item w)) = trace w ++ item_calls item.
Proof.
  pose proof (replay_trace item w) as Ht. unfold after_replay, item_calls.
  destruct (replay item w) as [[[]|m] w1]; simpl in *; rewrite Ht;
    by rewrite <- app_assoc.
Qed.

Lemma drained_trace items : forall w,
  trace (drained items w) = trace w ++ flat_map item_calls items.
Proof.
  induction items as [|item rest IH]; intros w; simpl.
  - by rewrite app_nil_r.
  - by rewrite IH, after_replay_trace, <- app_assoc.
Qed.




(** ** What the loop does to each row *)








(** ** The rows a drain fetches *)

#[global] Instance created_le_total : Total created_le.
Proof. intros a b. unfold created_le. lia. Qed.

#[global] Instance created_le_trans : Transitive created_le.
Proof. intros a b c. unfold created_le. lia. Qed.

Lemma filter_pending_visible u w :
  auth_user w = Some u ->
  List.filter (fun r => visible w r && is_pending_of u r) (sync_queue w)
  = List.filter (is_pending_of u) (sync_queue w).
Proof.
  intros Ha. apply filter_ext. intros r. unfold visible, is_pending_of.
  rewrite Ha. by destruct (Nat.eqb (user_id r) u).
Qed.

Lemma is_pending_of_spec u r :
  is_pending_of u r = true <-> user_id r = u /\ status r = Pending.
Proof.
  unfold is_pending_of. rewrite andb_true_iff, Nat.eqb_eq.
  by destruct (status r); simpl; intuition.
Qed.

Lemma fetch_pending_perm u w :
  auth_user w = Some u ->
  fetch_pending u w ≡ₚ List.filter (is_pending_of u) (sync_queue w).
Proof.
  intros Ha. unfold fetch_pending. rewrite merge_sort_Permutation.
  by rewrite filter_pending_visible.
Qed.

Lemma fetch_pending_elem u w r :
  auth_user w = Some u ->
  r ∈ fetch_pending u w <-> r ∈ sync_queue w /\ user_id r = u /\ status r = Pending.
Proof.
  intros Ha. rewrite (fetch_pending_perm u w Ha).
  rewrite !list_elem_of_In, filter_In, is_pending_of_spec. done.
Qed.



Lemma processSyncQueue_reliable u w :
  auth_user w = Some u -> queue_reliable w ->
  processSyncQueue w
  = process_items (fetch_pending u w) 0 0 (set_trace (trace w ++ [select_call]) w).
Proof.
  intros Ha Hrel. pose proof (Hrel select_call eq_refl) as Hsel.
  unfold select_call in *.
  unfold processSyncQueue, sq_select_pending, bind, getUser, request.
  by rewrite Ha, Hsel.
Qed.

(** C1. A drain fetches exactly the pending rows of the signed-in actor, in
    ascending order of creation time, and sends the requests of the items
    one item at a time in that order: after the [select], each item's
    replay request is followed by its own bookkeeping update. *)
Theorem processSyncQueue_fetches_in_creation_order (w : World) (u : nat) :
  auth_user w = Some u -> queue_reliable w ->
  (forall r, r ∈ fetch_pending u w <->
             r ∈ sync_queue w /\ user_id r = u /\ status r = Pending)
  /\ fetch_pending u w ≡ₚ List.filter (is_pending_of u) (sync_queue w)
  /\ StronglySorted created_le (fetch_pending u w)
  /\ (exists res, fst (processSyncQueue w) = Val res)
  /\ trace (snd (processSyncQueue w))
     = trace w ++ select_call :: flat_map item_calls (fetch_pending u w).
Proof.
  intros Ha Hrel. split; [|split; [|split; [|split]]].
  - intros r. by apply fetch_pending_elem.
  - by apply fetch_pending_perm.
  - apply StronglySorted_merge_sort; apply _.
  - rewrite (processSyncQueue_reliable u w Ha Hrel).
    destruct (process_items_reliable (fetch_pending u w)
                (set_trace (trace w ++ [select_call]) w) 0 0) as (a & b & -> & _);
      [done|]. eauto.
  - rewrite (processSyncQueue_reliable u w Ha Hrel).
    destruct (process_items_reliable (fetch_pending u w)
                (set_trace (trace w ++ [select_call]) w) 0 0) as (a & b & -> & _);
      [done|].
    simpl. rewrite drained_trace. simpl. by rewrite <- app_assoc.
Qed.

Lemma sample_reliable user online :
  queue_reliable (Sample.world user online Sample.deletes_rejected).
Proof.
  intros c Hc. simpl. unfold Sample.deletes_rejected. by rewrite Hc.
Defined.


Lemma processSyncQueue_fetches_in_creation_order_witness :
  fetch_pending Sample.alice Sample.online_world
  ≡ₚ List.filter (is_pending_of Sample.alice) (sync_queue Sample.online_world)
  /\ trace (snd (processSyncQueue Sample.online_world))
     = [select_call;
        mkCall "annotations" v_insert None; mark_call Sample.add_label;
        mkCall "annotations" v_delete (Some (JUuid 41)); mark_call Sample.remove_old;
        mkCall "annotations" v_update (Some (JUuid 40)); mark_call Sample.edit_gone].
Proof.
  destruct (processSyncQueue_fetches_in_creation_order Sample.online_world
              Sample.alice eq_refl (sample_reliable _ _))
    as (_ & Hperm & _ & _ & Htrace).
  split; [exact Hperm | exact Htrace].
Defined.



(** C10. Without a signed-in user [processSyncQueue] returns
    [{ processed: 0, failed: 0 }] and leaves the world as it was: no
    request is sent and no row is read or written.  While [isOnline] is
    false [syncNow] does the same. *)
Theorem sync_without_user_or_connectivity (w : World) :
  (auth_user w = None -> processSyncQueue w = (Val (mkResult 0 0), w))
  /\ (isOnline w = false -> SyncService.syncNow w = (Val (mkResult 0 0), w)).
Proof.
  split.
  - intros Ha. unfold processSyncQueue, bind, getUser, ret. by rewrite Ha.
  - intros Hoff. unfold SyncService.syncNow. by rewrite Hoff.
Qed.

Lemma sync_without_user_or_connectivity_witness :
  processSyncQueue Sample.signed_out_world = (Val (mkResult 0 0), Sample.signed_out_world)
  /\ SyncService.syncNow Sample.offline_world = (Val (mkResult 0 0), Sample.offline_world).
Proof.
  split.
  - exact (proj1 (sync_without_user_or_connectivity Sample.signed_out_world) eq_refl).
  - exact (proj2 (sync_without_user_or_connectivity Sample.offline_world) eq_refl).
Defined.

(** ** Enqueue and clean-up *)

Lemma clearSyncedItems_cases w :
  SyncService.clearSyncedItems w =
  match auth_user w with
  | None => (Val tt, w)
  | Some u =>
      match fault w delete_call with
      | NoFault =>
          (Val tt,
           set_sync_queue
             (List.filter
                (fun r => negb (Nat.eqb (user_id r) u && Status_eqb (status r) Synced))
                (sync_queue w))
             (set_trace (trace w ++ [delete_call]) w))
      | ReplyError e | Throws e => (Exn e, set_trace (trace w ++ [delete_call]) w)
      end
  end.
Proof.
  unfold SyncService.clearSyncedItems, sq_delete_synced, bind, getUser, request,
    ret, throw, delete_call.
  destruct (auth_user w) as [u|] eqn:Ha; [|done].
  destruct (fault w _); simpl; try done.
  rewrite (filter_ext
             (fun r => negb (visible (set_trace (trace w ++ [delete_call]) w) r
                             && Nat.eqb (user_id r) u && Status_eqb (status r) Synced))
             (fun r => negb (Nat.eqb (user_id r) u && Status_eqb (status r) Synced)));
    [done|].
  intros r. unfold visible. simpl. rewrite Ha.
  by destruct (Nat.eqb (user_id r) u).
Qed.

Lemma filter_implied (f g : QueueItem -> bool) q :
  (forall r, f r = true -> g r = true) ->
  List.filter f (List.filter g q) = List.filter f q.
Proof.
  intros H. induction q as [|x q IH]; [done|]. simpl.
  destruct (g x) eqn:Eg; simpl.
  - destruct (f x); by rewrite IH.
  - destruct (f x) eqn:Ef; [|done]. apply H in Ef. congruence.
Qed.

(** C7. [clearSyncedItems] removes from the queue exactly the rows of the
    signed-in actor whose status is [Synced], when its [delete] is
    answered; and whatever happens, the rows that are not [Synced] (pending
    or failed) stay as they were, in the same order. *)
Theorem clearSyncedItems_removes_only_synced (w : World) :
  (forall u, auth_user w = Some u -> fault w delete_call = NoFault ->
     SyncService.clearSyncedItems w
     = (Val tt,
        set_sync_queue
          (List.filter
             (fun r => negb (Nat.eqb (user_id r) u && Status_eqb (status r) Synced))
             (sync_queue w))
          (set_trace (trace w ++ [delete_call]) w)))
  /\ List.filter (fun r => negb (Status_eqb (status r) Synced))
       (sync_queue (snd (SyncService.clearSyncedItems w)))
     = List.filter (fun r => negb (Status_eqb (status r) Synced)) (sync_queue w).
Proof.
  rewrite clearSyncedItems_cases. split.
  - intros u Ha Hf. by rewrite Ha, Hf.
  - destruct (auth_user w) as [u|]; [|done].
    destruct (fault w delete_call); try done. simpl.
    apply filter_implied. intros r Hr.
    destruct (Status_eqb (status r) Synced); [done|].
    by rewrite andb_false_r.
Qed.

Lemma clearSyncedItems_removes_only_synced_witness :
  sync_queue (snd (SyncService.clearSyncedItems Sample.online_world))
  = [Sample.edit_gone; Sample.add_label; Sample.bobs_insert; Sample.remove_old;
     Sample.broke_before].
Proof.
  exact (f_equal (fun x => sync_queue (snd x))
           (proj1 (clearSyncedItems_removes_only_synced Sample.online_world)
              Sample.alice eq_refl eq_refl)).
Defined.

Lemma queueOfflineOperation_raise op t d w e w' :
  queueOfflineOperation op t d w = (Exn e, w') -> sync_queue w' = sync_queue w.
Proof.
  unfold queueOfflineOperation, sq_insert, bind, getUser, request, ret, throw.
  destruct (auth_user w) as [u|] eqn:Ha; [|by intros [= _ <-]].
  destruct (fault w _); simpl; [|by intros [= _ <-]..].
  rewrite Ha, Nat.eqb_refl. destruct d; simpl; intros [= _ <-]; done.
Qed.

Lemma queueOfflineOperation_appends op t d w u :
  auth_user w = Some u -> fault w insert_call = NoFault -> d <> JNull ->
  queueOfflineOperation op t d w
  = (Val (Some (mkItem (next_uuid w) u op t d Pending None 0 (clock w) None)),
     set_clock (clock w + 1)%Z
       (set_next_uuid (S (next_uuid w))
          (set_sync_queue
             (sync_queue w
              ++ [mkItem (next_uuid w) u op t d Pending None 0 (clock w) None])
             (set_trace (trace w ++ [insert_call]) w)))).
Proof.
  unfold queueOfflineOperation, sq_insert, bind, getUser, request, ret, throw,
    insert_call.
  intros Ha Hf Hd. rewrite Ha, Hf. simpl. rewrite Ha, Nat.eqb_refl.
  by destruct d.
Qed.

(** C8. [queueOfflineOperation] needs a signed-in actor.  With one, and
    with its [insert] answered for a record that is not [null], it appends
    one row for that actor with status [Pending], [attempts] 0, no error
    and no [synced_at], and returns it.  Without one it raises
    ['User not authenticated'] at once and the world is as before; and
    whenever it raises, no row has been added. *)
Theorem queueOfflineOperation_requires_user
    (op : Operation) (t : string) (d : Json) (w : World) :
  (forall u, auth_user w = Some u -> fault w insert_call = NoFault -> d <> JNull ->
     queueOfflineOperation op t d w
     = (Val (Some (mkItem (next_uuid w) u op t d Pending None 0 (clock w) None)),
        set_clock (clock w + 1)%Z
          (set_next_uuid (S (next_uuid w))
             (set_sync_queue
                (sync_queue w
                 ++ [mkItem (next_uuid w) u op t d Pending None 0 (clock w) None])
                (set_trace (trace w ++ [insert_call]) w)))))
  /\ (auth_user w = None ->
      queueOfflineOperation op t d w = (Exn "User not authenticated", w))
  /\ (forall e w', queueOfflineOperation op t d w = (Exn e, w') ->
      sync_queue w' = sync_queue w).
Proof.
  split; [|split].
  - intros u Ha Hf Hd. by apply queueOfflineOperation_appends.
  - intros Ha. unfold queueOfflineOperation, bind, getUser, throw. by rewrite Ha.
  - intros e w'. apply queueOfflineOperation_raise.
Qed.

Lemma queueOfflineOperation_requires_user_witness :
  (exists w', queueOfflineOperation op_insert "annotations" (JObj [("label", JStr "dune")])
                Sample.offline_world
              = (Val (Some (mkItem 50 Sample.alice op_insert "annotations"
                              (JObj [("label", JStr "dune")]) Pending None 0 100 None)),
                 w'))
  /\ queueOfflineOperation op_insert "annotations" (JObj [("label", JStr "dune")])
       Sample.signed_out_world
     = (Exn "User not authenticated", Sample.signed_out_world).
Proof.
  split.
  - eexists.
    exact (proj1 (queueOfflineOperation_requires_user op_insert "annotations"
                    (JObj [("label", JStr "dune")]) Sample.offline_world)
             Sample.alice eq_refl eq_refl ltac:(discriminate)).
  - exact (proj1 (proj2 (queueOfflineOperation_requires_user op_insert "annotations"
                           (JObj [("label", JStr "dune")]) Sample.signed_out_world))
             eq_refl).
Defined.

(** ** Retry *)

Lemma syncNow_returns w : exists res, fst (SyncService.syncNow w) = Val res.
Proof.
  unfold SyncService.syncNow. destruct (isOnline w); simpl; [|eauto].
  unfold try_catch, bind, SyncService.setLastSyncTime, now, ret.
  destruct (processSyncQueue w) as [[res|e] w1]; simpl; eauto.
Qed.




(** ** Status changes, whatever the environment answers *)



























(** ** Sequences of operations *)














(** ** Failed rows carry their failure *)










(** ** Writing an annotation while offline *)

Lemma quiet_ret {A} (a : A) : quiet (ret a).
Proof. done. Qed.

Lemma quiet_throw {A} e : quiet (@throw A e).
Proof. done. Qed.

Lemma quiet_bind {A B} (m : M A) (k : A -> M B) :
  quiet m -> (forall a, quiet (k a)) -> quiet (bind m k).
Proof.
  intros Hm Hk w. unfold bind. specialize (Hm w).
  destruct (m w) as [[a|e] w1]; simpl in *; [|done].
  by rewrite Hk.
Qed.

Lemma quiet_prop k v : quiet (prop k v).
Proof. unfold prop. repeat case_match; done. Qed.

Lemma quiet_index0 v : quiet (index0 v).
Proof. unfold index0. repeat case_match; done. Qed.

Lemma quiet_tbl_select_single t col k : quiet (tbl_select_single t col k).
Proof.
  intros w. unfold tbl_select_single, request.
  repeat case_match; simplify_eq/=; done.
Qed.

Lemma quiet_tbl_insert t d : quiet (tbl_insert t d).
Proof.
  intros w. unfold tbl_insert, request.
  repeat case_match; simplify_eq/=; done.
Qed.

Lemma quiet_getOrCreateImage nasaItem : quiet (ImageService.getOrCreateImage nasaItem).
Proof.
  unfold ImageService.getOrCreateImage.
  repeat (first [ apply quiet_bind; [|intros ?]
                | apply quiet_prop | apply quiet_index0
                | apply quiet_tbl_select_single | apply quiet_tbl_insert
                | apply quiet_ret | apply quiet_throw
                | case_match ]).
Qed.

Lemma queue_side_queue w w' : queue_side w' = queue_side w -> sync_queue w' = sync_queue w.
Proof. unfold queue_side. congruence. Qed.

Lemma createAnnotation_offline_run nasaItem annotationData w u image w1 :
  auth_user w = Some u ->
  default false (net_isConnected w) = false ->
  ImageService.getOrCreateImage nasaItem w = (Val (Some image), w1) ->
  fault w insert_call = NoFault ->
  AnnotationServiceV2.createAnnotation nasaItem annotationData w
  = (Val (Some
            (("id", JStr ("temp-" +:+ pretty (clock w + 1)%Z))
             :: AnnotationServiceV2.insertData (get_field "id" image) u annotationData
             ++ [("created_at", JNum (clock w + 2)%Z);
                 ("updated_at", JNum (clock w + 3)%Z)])),
     set_clock (clock w + 4)%Z
       (snd (queueOfflineOperation op_insert "annotations"
               (JObj (AnnotationServiceV2.insertData (get_field "id" image) u
                        annotationData)) w1))).
Proof.
  intros Ha Hoff Himg Hf.
  pose proof (quiet_getOrCreateImage nasaItem w) as Hs. rewrite Himg in Hs.
  simpl in Hs. unfold queue_side in Hs.
  assert (auth_user w1 = Some u) as Ha1 by congruence.
  assert (fault w1 insert_call = NoFault) as Hf1 by congruence.
  assert (clock w1 = clock w) as Hc by congruence.
  unfold AnnotationServiceV2.createAnnotation, bind at 1. unfold getUser.
  rewrite Ha. unfold bind at 1. unfold AnnotationServiceV2.NetInfo_fetch.
  unfold bind at 1. rewrite Himg. unfold bind at 1. simpl prop. unfold ret at 1.
  rewrite Hoff. cbn [negb]. cbv beta iota zeta. unfold bind at 1.
  rewrite !(queueOfflineOperation_appends _ _ _ w1 u Ha1 Hf1) by discriminate.
  unfold bind, now, ret. simpl. rewrite Hc.
  replace (clock w + 1 + 1)%Z with (clock w + 2)%Z by lia.
  replace (clock w + 2 + 1)%Z with (clock w + 3)%Z by lia.
  replace (clock w + 3 + 1)%Z with (clock w + 4)%Z by lia.
  reflexivity.
Qed.

Lemma createAnnotation_raise nasaItem annotationData w e w' :
  AnnotationServiceV2.createAnnotation nasaItem annotationData w = (Exn e, w') ->
  sync_queue w' = sync_queue w.
Proof.
  unfold AnnotationServiceV2.createAnnotation, bind at 1. unfold getUser.
  destruct (auth_user w) as [u|]; [|by intros [= _ <-]].
  unfold bind at 1. unfold AnnotationServiceV2.NetInfo_fetch. unfold bind at 1.
  pose proof (quiet_getOrCreateImage nasaItem w) as Hs.
  destruct (ImageService.getOrCreateImage nasaItem w) as [[image|e1] w1];
    simpl in Hs; apply queue_side_queue in Hs; [|by intros [= _ <-]].
  unfold bind at 1.
  destruct image as [image|]; simpl prop; [|by intros [= _ <-]].
  unfold ret at 1. cbv zeta.
  destruct (negb (default false (net_isConnected w))).
  - unfold bind at 1.
    destruct (queueOfflineOperation _ _ _ w1) as [[r|e2] w2] eqn:Eq.
    + unfold bind, now, ret. discriminate.
    + intros [= _ <-]. apply queueOfflineOperation_raise in Eq. congruence.
  - unfold bind at 1.
    pose proof (quiet_tbl_insert "annotations"
                  (JObj (AnnotationServiceV2.insertData (get_field "id" image) u
                           annotationData)) w1) as Hs'.
    destruct (tbl_insert _ _ w1) as [[r|e2] w2]; simpl in Hs';
      apply queue_side_queue in Hs'.
    + destruct (error r); unfold ret, throw; intros [= _ <-]; congruence.
    + intros [= _ <-]. congruence.
Qed.

(** The offline branch when the store still answers.  For a signed-in
    actor and with connectivity reported absent, [createAnnotation]
    appends a pending insert into [annotations] to the queue and returns
    the optimistic record, provided the image record was found or created
    and the request that inserts into [sync_queue] is answered.  Whenever
    [createAnnotation] raises, nothing has been queued. *)
Theorem createAnnotation_offline_enqueues
    (nasaItem : Json) (annotationData : AnnotationData) (w : World) :
  (forall u image w1,
     auth_user w = Some u ->
     default false (net_isConnected w) = false ->
     ImageService.getOrCreateImage nasaItem w = (Val (Some image), w1) ->
     fault w insert_call = NoFault ->
     exists w',
       AnnotationServiceV2.createAnnotation nasaItem annotationData w
       = (Val (Some
                 (("id", JStr ("temp-" +:+ pretty (clock w + 1)%Z))
                  :: AnnotationServiceV2.insertData (get_field "id" image) u
                       annotationData
                  ++ [("created_at", JNum (clock w + 2)%Z);
                      ("updated_at", JNum (clock w + 3)%Z)])),
          w')
       /\ sync_queue w'
          = sync_queue w
            ++ [mkItem (next_uuid w1) u op_insert "annotations"
                  (JObj (AnnotationServiceV2.insertData (get_field "id" image) u
                           annotationData))
                  Pending None 0 (clock w) None])
  /\ (forall e w',
        AnnotationServiceV2.createAnnotation nasaItem annotationData w = (Exn e, w') ->
        sync_queue w' = sync_queue w).
Proof.
  split; [|apply createAnnotation_raise].
  intros u image w1 Ha Hoff Himg Hf.
  pose proof (quiet_getOrCreateImage nasaItem w) as Hs. rewrite Himg in Hs.
  simpl in Hs. unfold queue_side in Hs.
  assert (auth_user w1 = Some u) as Ha1 by congruence.
  assert (fault w1 insert_call = NoFault) as Hf1 by congruence.
  assert (clock w1 = clock w) as Hc by congruence.
  assert (sync_queue w1 = sync_queue w) as Hq by congruence.
  eexists. split; [by apply createAnnotation_offline_run|].
  rewrite (queueOfflineOperation_appends _ _ _ w1 u Ha1 Hf1) by discriminate.
  simpl. by rewrite Hq, Hc.
Qed.

Lemma createAnnotation_offline_enqueues_witness :
  exists w',
    AnnotationServiceV2.createAnnotation Sample.nasa_item Sample.annotation
      Sample.offline_world
    = (Val (Some
              [("id", JStr "temp-101"); ("image_id", JUuid 50);
               ("user_id", JUuid Sample.alice); ("label", JStr "caldera");
               ("annotation_type", JStr "point"); ("properties", JObj []);
               ("color", JStr "#FFFFFF"); ("source", JStr "user");
               ("created_at", JNum 102); ("updated_at", JNum 103)]),
       w').
Proof.
  destruct (proj1 (createAnnotation_offline_enqueues Sample.nasa_item
                     Sample.annotation Sample.offline_world)
              Sample.alice _ _ eq_refl eq_refl eq_refl eq_refl)
    as (w' & Hrun & _).
  exists w'. exact Hrun.
Defined.

Lemma prop_world k v w : snd (prop k v w) = w.
Proof. unfold prop. by repeat case_match. Qed.

Lemma index0_world v w : snd (index0 v w) = w.
Proof. unfold index0. by repeat case_match. Qed.

Lemma tbl_select_single_unreachable t col k w :
  store_unreachable w ->
  (exists e, fst (tbl_select_single t col k w) = Exn e)
  \/ (exists r, fst (tbl_select_single t col k w) = Val r /\ data r = None
               /\ fault (snd (tbl_select_single t col k w)) = fault w).
Proof.
  intros Hun. unfold tbl_select_single, request.
  destruct (fault w _) eqn:Ef; [by apply Hun in Ef|right|left]; simpl; eauto.
Qed.

Lemma tbl_insert_unreachable t d w :
  store_unreachable w ->
  (exists e, fst (tbl_insert t d w) = Exn e)
  \/ (exists r e, fst (tbl_insert t d w) = Val r /\ error r = Some e).
Proof.
  intros Hun. unfold tbl_insert, request.
  destruct (fault w _) eqn:Ef; [by apply Hun in Ef|right|left]; simpl; eauto.
Qed.

Ltac step_prop :=
  unfold bind at 1;
  match goal with
  | |- context [prop ?k ?v ?w] =>
      let H := fresh in
      pose proof (prop_world k v w) as H;
      destruct (prop k v w) as [[?|?] ?]; simpl in H; subst; [|by eauto]
  | |- context [index0 ?v ?w] =>
      let H := fresh in
      pose proof (index0_world v w) as H;
      destruct (index0 v w) as [[?|?] ?]; simpl in H; subst; [|by eauto]
  end.

Lemma getOrCreateImage_unreachable nasaItem w :
  store_unreachable w ->
  exists e, fst (ImageService.getOrCreateImage nasaItem w) = Exn e.
Proof.
  intros Hun. unfold ImageService.getOrCreateImage.
  do 3 step_prop.
  unfold bind at 1.
  match goal with
  | |- context [tbl_select_single ?t ?c ?k w] =>
      destruct (tbl_select_single_unreachable t c k w Hun)
        as [[e He]|(r & Hr & Hd & Hf)];
      destruct (tbl_select_single t c k w) as [[r'|e'] w1]; cbn [fst snd] in *
  end; try done; [by eauto|].
  simplify_eq. rewrite Hd. cbv beta iota.
  assert (store_unreachable w1) as Hun1 by (intros c; rewrite Hf; apply Hun).
  do 6 step_prop.
  unfold bind at 1.
  match goal with
  | |- context [tbl_insert ?t ?d w1] =>
      destruct (tbl_insert_unreachable t d w1 Hun1) as [[e He]|(r1 & e & Hr1 & He)];
      destruct (tbl_insert t d w1) as [[r2|e2] w2]; cbn [fst snd] in *
  end; try done; eauto.
  simplify_eq. rewrite He. unfold throw. eauto.
Qed.

(** C9: what the code does while connectivity is absent in earnest.  If no
    request is answered by the store, [createAnnotation] never reaches
    the offline queue: it raises to its caller and no row is queued,
    whatever NetInfo reports. *)
Theorem createAnnotation_fails_while_store_unreachable
    (nasaItem : Json) (annotationData : AnnotationData) (w : World) :
  store_unreachable w ->
  exists e w',
    AnnotationServiceV2.createAnnotation nasaItem annotationData w = (Exn e, w')
    /\ sync_queue w' = sync_queue w.
Proof.
  intros Hun.
  assert (exists e, fst (AnnotationServiceV2.createAnnotation nasaItem annotationData w)
                    = Exn e) as [e He].
  { unfold AnnotationServiceV2.createAnnotation, bind at 1. unfold getUser.
    destruct (auth_user w) as [u|]; [|unfold throw; eauto].
    unfold bind at 1. unfold AnnotationServiceV2.NetInfo_fetch. unfold bind at 1.
    destruct (getOrCreateImage_unreachable nasaItem w Hun) as [e He].
    destruct (ImageService.getOrCreateImage nasaItem w) as [[r|e'] w1];
      simpl in He; [done|eauto]. }
  destruct (AnnotationServiceV2.createAnnotation nasaItem annotationData w)
    as [r w'] eqn:E. simpl in He. subst r.
  exists e, w'. split; [done|]. by apply (createAnnotation_raise _ _ _ _ _ E).
Qed.

Lemma createAnnotation_fails_while_store_unreachable_witness :
  auth_user Sample.cut_off_world = Some Sample.alice
  /\ net_isConnected Sample.cut_off_world = Some false
  /\ exists e w',
       AnnotationServiceV2.createAnnotation Sample.nasa_item Sample.annotation
         Sample.cut_off_world = (Exn e, w')
       /\ sync_queue w' = sync_queue Sample.cut_off_world.
Proof.
  split; [reflexivity|]. split; [reflexivity|].
  apply (createAnnotation_fails_while_store_unreachable Sample.nasa_item
           Sample.annotation Sample.cut_off_world).
  intros c. discriminate.
Defined.

(** C4: what the code does with an update whose target row is missing. *)
Theorem update_of_missing_row_is_marked_synced :
  List.filter (matches "id" (Some (JUuid 40)))
    <$> (tables Sample.calm_world !! "annotations") = Some []
  /\ Sample.edit_gone ∈ fetch_pending Sample.alice Sample.calm_world
  /\ fst (processSyncQueue Sample.calm_world) = Val (mkResult 3 0)
  /\ find_item 1 (sync_queue (snd (processSyncQueue Sample.calm_world)))
     = Some (mkItem 1 Sample.alice op_update "annotations"
               (JObj [("id", JUuid 40); ("label", JStr "crater")])
               Synced None 0 10 (Some 102%Z))
  /\ List.filter (matches "id" (Some (JUuid 40)))
       <$> (tables (snd (processSyncQueue Sample.calm_world)) !! "annotations")
     = Some [].
Proof.
  split; [by vm_compute|]. split; [|by vm_compute].
  apply list_elem_of_In. vm_compute. auto.
Qed.

(** * Further properties *)

(** ** What a drain leaves behind *)












(** ** Counting and listing *)

Lemma fetch_pending_length u w :
  length (fetch_pending u w)
  = length (List.filter (fun r => visible w r && is_pending_of u r) (sync_queue w)).
Proof. unfold fetch_pending. by rewrite merge_sort_Permutation. Qed.

Lemma getPendingSyncCount_answered u w :
  auth_user w = Some u -> fault w select_call = NoFault ->
  SyncServiceQueries.getPendingSyncCount w
  = (Val (length (fetch_pending u w)), set_trace (trace w ++ [select_call]) w).
Proof.
  intros Ha Hf.
  unfold SyncServiceQueries.getPendingSyncCount, sq_count_pending, bind, getUser,
    request, ret.
  rewrite Ha, Hf. simpl. by rewrite fetch_pending_length.
Qed.

Lemma getPendingSyncCount_queue_side w :
  queue_side (snd (SyncServiceQueries.getPendingSyncCount w)) = queue_side w.
Proof.
  unfold SyncServiceQueries.getPendingSyncCount, sq_count_pending, bind, getUser,
    request, ret.
  destruct (auth_user w); [|done]. by destruct (fault w _).
Qed.

(** X1. [getPendingSyncCount], when its request is answered, returns the
    number of items the next drain would fetch.  Without a signed-in user
    it returns 0 and sends nothing; an error reply gives 0 as well, so a
    count of 0 does not tell an empty queue from a failed request.  It
    never writes to the queue. *)
Theorem getPendingSyncCount_counts_what_a_drain_fetches (w : World) :
  (forall u, auth_user w = Some u -> fault w select_call = NoFault ->
     SyncServiceQueries.getPendingSyncCount w
     = (Val (length (fetch_pending u w)), set_trace (trace w ++ [select_call]) w))
  /\ (auth_user w = None ->
      SyncServiceQueries.getPendingSyncCount w = (Val 0, w))
  /\ (forall e, fault w select_call = ReplyError e ->
      fst (SyncServiceQueries.getPendingSyncCount w) = Val 0)
  /\ queue_side (snd (SyncServiceQueries.getPendingSyncCount w)) = queue_side w.
Proof.
  split; [|split; [|split]].
  - intros u. apply getPendingSyncCount_answered.
  - intros Ha. unfold SyncServiceQueries.getPendingSyncCount, bind, getUser, ret.
    by rewrite Ha.
  - intros e Hf.
    unfold SyncServiceQueries.getPendingSyncCount, sq_count_pending, bind, getUser,
      request, ret.
    destruct (auth_user w); [|done]. by rewrite Hf.
  - apply getPendingSyncCount_queue_side.
Qed.

Lemma getPendingSyncCount_counts_what_a_drain_fetches_witness :
  fst (SyncServiceQueries.getPendingSyncCount Sample.online_world) = Val 3
  /\ SyncServiceQueries.getPendingSyncCount Sample.signed_out_world
     = (Val 0, Sample.signed_out_world)
  /\ fst (SyncServiceQueries.getPendingSyncCount Sample.cut_off_world) = Val 0.
Proof.
  split; [|split].
  - exact (f_equal fst
             (proj1 (getPendingSyncCount_counts_what_a_drain_fetches Sample.online_world)
                Sample.alice eq_refl eq_refl)).
  - exact (proj1 (proj2 (getPendingSyncCount_counts_what_a_drain_fetches
                           Sample.signed_out_world)) eq_refl).
  - exact (proj1 (proj2 (proj2 (getPendingSyncCount_counts_what_a_drain_fetches
                                  Sample.cut_off_world)))
             "Network request failed" eq_refl).
Defined.




(** ** First in, first out *)

Lemma last_of_sorted (l : list QueueItem) (x : QueueItem) :
  StronglySorted created_le l -> x ∈ l ->
  (forall y, y ∈ l -> y = x \/ (created_at y < created_at x)%Z) ->
  last l = Some x.
Proof.
  induction l as [|a l IH]; intros Hs Hx Hlt; [by apply elem_of_nil in Hx|].
  apply StronglySorted_inv in Hs as [Hs Ha].
  destruct l as [|b l'].
  - apply list_elem_of_singleton in Hx. by subst.
  - change (last (a :: b :: l')) with (last (b :: l')).
    assert (b ∈ b :: l') as Hb by (apply elem_of_cons; by left).
    apply IH; [done| |].
    + apply elem_of_cons in Hx as [->|Hx]; [|done].
      destruct (Hlt b) as [->|Hlt']; [apply elem_of_cons; by right|done|].
      rewrite Forall_forall in Ha. pose proof (Ha b Hb) as Hle.
      unfold created_le in Hle. lia.
    + intros y Hy. apply Hlt. apply elem_of_cons. by right.
Qed.

(** X5. First in, first out.  If every queued row was created before
    now, the item that [queueOfflineOperation] appends is the last one the
    next drain fetches, behind every item that was pending already, and the
    number fetched grows by one. *)
Theorem enqueued_item_is_fetched_last
    (op : Operation) (t : string) (d : Json) (w : World) (u : nat) :
  auth_user w = Some u -> fault w insert_call = NoFault -> d <> JNull ->
  (forall r, r ∈ sync_queue w -> (created_at r < clock w)%Z) ->
  last (fetch_pending u (snd (queueOfflineOperation op t d w)))
  = Some (mkItem (next_uuid w) u op t d Pending None 0 (clock w) None)
  /\ length (fetch_pending u (snd (queueOfflineOperation op t d w)))
     = S (length (fetch_pending u w)).
Proof.
  intros Ha Hf Hd Hpast.
  rewrite (queueOfflineOperation_appends op t d w u Ha Hf Hd). cbn [snd].
  set (row := mkItem (next_uuid w) u op t d Pending None 0 (clock w) None).
  set (w1 := set_clock _ _).
  assert (List.filter (fun r => visible w1 r && is_pending_of u r) (sync_queue w1)
          = List.filter (fun r => visible w r && is_pending_of u r) (sync_queue w)
            ++ [row]) as Hfil.
  { unfold w1. simpl. rewrite List.filter_app. f_equal.
    simpl. unfold visible, is_pending_of. simpl. by rewrite Ha, !Nat.eqb_refl. }
  split.
  - apply last_of_sorted.
    + apply StronglySorted_merge_sort; apply _.
    + unfold fetch_pending. rewrite merge_sort_Permutation, Hfil.
      apply elem_of_app. right. by apply list_elem_of_singleton.
    + intros y Hy. unfold fetch_pending in Hy.
      rewrite merge_sort_Permutation, Hfil in Hy.
      apply elem_of_app in Hy as [Hy|Hy].
      * right. apply list_elem_of_In, filter_In in Hy as [Hy _].
        apply list_elem_of_In in Hy. by apply Hpast.
      * left. by apply list_elem_of_singleton in Hy.
  - rewrite !fetch_pending_length, Hfil, length_app. simpl. lia.
Qed.

Lemma enqueued_item_is_fetched_last_witness :
  last (fetch_pending Sample.alice
          (snd (queueOfflineOperation op_update "annotations"
                  (JObj [("id", JUuid 41); ("label", JStr "dune")])
                  Sample.offline_world)))
  = Some (mkItem 50 Sample.alice op_update "annotations"
            (JObj [("id", JUuid 41); ("label", JStr "dune")]) Pending None 0 100 None).
Proof.
  refine (proj1 (enqueued_item_is_fetched_last op_update "annotations"
                   (JObj [("id", JUuid 41); ("label", JStr "dune")])
                   Sample.offline_world Sample.alice eq_refl eq_refl _ _)).
  - discriminate.
  - intros r Hr. apply list_elem_of_In in Hr. simpl in Hr.
    destruct Hr as [<-|[<-|[<-|[<-|[<-|[<-|[]]]]]]]; simpl; lia.
Defined.

(** ** Failed items, as listed *)

#[global] Instance created_ge_total : Total created_ge.
Proof. intros a b. unfold created_ge. lia. Qed.

#[global] Instance created_ge_trans : Transitive created_ge.
Proof. intros a b c. unfold created_ge. lia. Qed.

Lemma is_failed_of_spec u r :
  is_failed_of u r = true <-> user_id r = u /\ status r = Failed.
Proof.
  unfold is_failed_of. rewrite andb_true_iff, Nat.eqb_eq.
  by destruct (status r); simpl; intuition.
Qed.

(** X6. [getFailedSyncItems], when its request is answered, returns
    exactly the failed rows of the signed-in user, newest first; in a queue
    where failed rows carry their failure, every item listed has
    [attempts >= 1] and an error message to show.  Without a signed-in
    user, or on an error reply, the list is empty. *)
Theorem getFailedSyncItems_lists_failures (w : World) :
  (forall u, auth_user w = Some u -> fault w select_call = NoFault ->
     exists l,
       SyncServiceQueries.getFailedSyncItems w
       = (Val l, set_trace (trace w ++ [select_call]) w)
       /\ (forall r, r ∈ l <->
             r ∈ sync_queue w /\ user_id r = u /\ status r = Failed)
       /\ StronglySorted created_ge l
       /\ (failed_wf (sync_queue w) ->
           forall r, r ∈ l -> (1 <= attempts r)%Z /\ error_message r <> None))
  /\ (auth_user w = None ->
      SyncServiceQueries.getFailedSyncItems w = (Val [], w))
  /\ (forall e, fault w select_call = ReplyError e ->
      fst (SyncServiceQueries.getFailedSyncItems w) = Val []).
Proof.
  unfold SyncServiceQueries.getFailedSyncItems, sq_select_failed, bind, getUser,
    request, ret.
  split; [|split].
  - intros u Ha Hf. rewrite Ha, Hf. simpl. eexists. split; [reflexivity|].
    assert (forall r, r ∈ fetch_failed u w <->
              r ∈ sync_queue w /\ user_id r = u /\ status r = Failed) as Hel.
    { intros r. unfold fetch_failed. rewrite merge_sort_Permutation.
      rewrite !list_elem_of_In, filter_In, andb_true_iff, is_failed_of_spec.
      unfold visible. rewrite Ha, Nat.eqb_eq. intuition. }
    split; [exact Hel|]. split.
    + apply StronglySorted_merge_sort; apply _.
    + intros Hwf r Hr. apply Hel in Hr as (Hr & _ & Hs).
      destruct (Hwf r Hr) as [_ H]. by apply H.
  - intros Ha. by rewrite Ha.
  - intros e Hf. destruct (auth_user w); [|done]. by rewrite Hf.
Qed.

Lemma getFailedSyncItems_lists_failures_witness :
  (exists l,
     fst (SyncServiceQueries.getFailedSyncItems Sample.online_world) = Val l
     /\ Sample.broke_before ∈ l)
  /\ SyncServiceQueries.getFailedSyncItems Sample.signed_out_world
     = (Val [], Sample.signed_out_world).
Proof.
  split.
  - destruct (proj1 (getFailedSyncItems_lists_failures Sample.online_world)
                Sample.alice eq_refl eq_refl) as (l & Hrun & Hel & _).
    exists l. split; [exact (f_equal fst Hrun)|].
    apply Hel. split; [|by split].
    apply list_elem_of_In. simpl. do 5 right. by left.
  - exact (proj1 (proj2 (getFailedSyncItems_lists_failures Sample.signed_out_world))
             eq_refl).
Defined.

(** ** Errors during a sync *)













(** ** Retrying what is not there *)

Lemma updated_without_hit p i w :
  (forall r, r ∈ sync_queue w -> hit w i r = false) ->
  sync_queue (updated p i w) = sync_queue w
  /\ transitions (updated p i w) = transitions w.
Proof.
  intros Hno. simpl. split.
  - rewrite <- (map_id (sync_queue w)) at 2. apply map_ext_in.
    intros r Hr. unfold patched. rewrite Hno; [done|by apply list_elem_of_In].
  - unfold status_changes.
    assert (flat_map
              (fun r => if hit w i r
                           && negb (Status_eqb (status r) (status (apply_patch p r)))
                        then [(id r, status r, status (apply_patch p r))] else [])
              (sync_queue w) = []) as ->; [|by rewrite app_nil_r].
    induction (sync_queue w) as [|x l IH]; [done|].
    simpl. rewrite Hno; [|apply elem_of_cons; by left]. simpl.
    apply IH. intros r Hr. apply Hno, elem_of_cons. by right.
Qed.

(** X8. [retryFailedItem] for an id under which the signed-in user has no
    row (an unknown id, or a row of someone else hidden by row level
    security) reports nothing: the update changes no row, no error is
    raised, and the sync is still run.  When the update is answered with an
    error, that error is raised and no sync is run. *)
Theorem retryFailedItem_of_unknown_id (w : World) (i : nat) :
  (fault w (mkCall sync_queue_table v_update (Some (JUuid i))) = NoFault ->
   (forall r, r ∈ sync_queue w -> id r = i -> auth_user w <> Some (user_id r)) ->
   sync_queue (updated SyncService.retry_patch i w) = sync_queue w
   /\ SyncService.retryFailedItem i w
      = (Val tt, snd (SyncService.syncNow (updated SyncService.retry_patch i w))))
  /\ (forall e,
        fault w (mkCall sync_queue_table v_update (Some (JUuid i))) = ReplyError e ->
        SyncService.retryFailedItem i w
        = (Exn e,
           set_trace (trace w ++ [mkCall sync_queue_table v_update (Some (JUuid i))]) w)).
Proof.
  split.
  - intros Hf Hnone.
    assert (forall r, r ∈ sync_queue w -> hit w i r = false) as Hno.
    { intros r Hr. unfold hit, visible.
      destruct (Nat.eqb (id r) i) eqn:Ei; [|by rewrite andb_false_r].
      apply Nat.eqb_eq in Ei. specialize (Hnone r Hr Ei).
      destruct (auth_user w) as [a|]; [|done].
      destruct (Nat.eqb (user_id r) a) eqn:Eu; [|done].
      apply Nat.eqb_eq in Eu. by subst. }
    split; [by apply updated_without_hit|].
    unfold SyncService.retryFailedItem, bind. rewrite sq_update_cases, Hf. simpl.
    destruct (syncNow_returns (updated SyncService.retry_patch i w)) as [res Hres].
    destruct (SyncService.syncNow (updated SyncService.retry_patch i w)) as [r w2].
    simpl in *. by subst r.
  - intros e Hf. unfold SyncService.retryFailedItem, bind.
    by rewrite sq_update_cases, Hf.
Qed.

Lemma retryFailedItem_of_unknown_id_witness :
  sync_queue (updated SyncService.retry_patch 3 Sample.offline_world)
  = sync_queue Sample.offline_world
  /\ SyncService.retryFailedItem 3 Sample.cut_off_world
     = (Exn "Network request failed",
        set_trace [mkCall sync_queue_table v_update (Some (JUuid 3))]
          Sample.cut_off_world).
Proof.
  split.
  - refine (proj1 (proj1 (retryFailedItem_of_unknown_id Sample.offline_world 3)
                     eq_refl _)).
    intros r Hr Hi. apply list_elem_of_In in Hr. simpl in Hr.
    destruct Hr as [<-|[<-|[<-|[<-|[<-|[<-|[]]]]]]]; try discriminate.
  - exact (proj2 (retryFailedItem_of_unknown_id Sample.cut_off_world 3)
             "Network request failed" eq_refl).
Defined.

(** ** The handlers that start a sync *)

Lemma syncNow_unit w :
  (SyncService.syncNow ;;; ret tt) w = (Val tt, snd (SyncService.syncNow w)).
Proof.
  unfold bind, ret. destruct (syncNow_returns w) as [res Hres].
  destruct (SyncService.syncNow w) as [r w2]. simpl in *. by subst r.
Qed.

(** X9. The connectivity listener and the periodic callback never raise,
    so starting them without awaiting is safe.  The listener runs a sync
    exactly when the flag goes from offline to online ([isConnected] null
    counts as offline); on any other event it only stores the flag and
    sends no request.  The periodic callback runs a sync only while the
    flag is online and otherwise does nothing. *)
Theorem sync_handlers_trigger_on_edges (w : World) (isConnected : option bool) :
  SyncServiceQueries.netInfoListener isConnected w
  = (Val tt,
     if negb (isOnline w) && default false isConnected
     then snd (SyncService.syncNow (set_isOnline true w))
     else set_isOnline (default false isConnected) w)
  /\ SyncServiceQueries.periodicSync w
     = (Val tt, if isOnline w then snd (SyncService.syncNow w) else w).
Proof.
  split.
  - unfold SyncServiceQueries.netInfoListener. simpl.
    destruct (isOnline w), (default false isConnected); simpl; try done.
    apply syncNow_unit.
  - unfold SyncServiceQueries.periodicSync.
    destruct (isOnline w); [apply syncNow_unit|done].
Qed.

(** ** The periodic timer *)

Lemma filter_other_handles (h : nat) (l : list nat) :
  h ∉ l -> List.filter (fun i => negb (Nat.eqb i h)) l = l.
Proof.
  induction l as [|x l IH]; intros Hn; [done|].
  apply not_elem_of_cons in Hn as [Hne Hn]. simpl.
  replace (Nat.eqb x h) with false by (symmetry; apply Nat.eqb_neq; congruence).
  simpl. by rewrite IH.
Qed.

Lemma clear_own_interval others h next :
  h ∉ others ->
  intervals (clearInterval h (mkService (Some h) (others ++ [h]) next)) = others.
Proof.
  intros Hn. simpl. rewrite List.filter_app. simpl. rewrite Nat.eqb_refl. simpl.
  by rewrite app_nil_r, filter_other_handles.
Qed.

Lemma startPeriodicSync_owns others s :
  owns_at_most_one others s ->
  owns_at_most_one others (SyncServiceTimer.startPeriodicSync s)
  /\ syncInterval (SyncServiceTimer.startPeriodicSync s) = Some (next_interval s).
Proof.
  destruct s as [own live next]. intros (Hlive & Hpos & Hlt & Hown). simpl in *.
  unfold SyncServiceTimer.startPeriodicSync, set_syncInterval, setInterval, clearInterval.
  simpl.
  assert (forall h, h ∈ others -> 0 < h < next) as Hothers.
  { intros h Hh. apply Hlt. rewrite Hlive. apply elem_of_app. by left. }
  assert (next ∉ others) as Hfresh by (intros Hin; apply Hothers in Hin; lia).
  destruct own as [h|]; simpl in *; subst live.
  - assert (0 < h < next) as Hh
      by (apply Hlt, elem_of_app; right; by apply list_elem_of_singleton).
    destruct h as [|h]; [lia|]. simpl.
    rewrite List.filter_app. simpl. rewrite Nat.eqb_refl. simpl.
    rewrite app_nil_r, filter_other_handles by (by apply Hown).
    split; [|done]. split; [done|]. split; [simpl; lia|]. split.
    + intros i Hi. simpl in *.
      apply elem_of_app in Hi as [Hi|Hi]; [apply Hothers in Hi; lia|].
      apply list_elem_of_singleton in Hi. lia.
    + by intros i [= <-].
  - rewrite app_nil_r. split; [|done]. split; [done|]. split; [simpl; lia|]. split.
    + intros i Hi. simpl in *.
      apply elem_of_app in Hi as [Hi|Hi]; [apply Hothers in Hi; lia|].
      apply list_elem_of_singleton in Hi. lia.
    + by intros i [= <-].
Qed.

Lemma stopPeriodicSync_owns others s :
  owns_at_most_one others s ->
  owns_at_most_one others (SyncServiceTimer.stopPeriodicSync s)
  /\ syncInterval (SyncServiceTimer.stopPeriodicSync s) = None.
Proof.
  destruct s as [own live next]. intros (Hlive & Hpos & Hlt & Hown). simpl in *.
  unfold SyncServiceTimer.stopPeriodicSync, set_syncInterval, setInterval, clearInterval.
  simpl.
  destruct own as [h|]; simpl in *; subst live.
  - assert (0 < h < next) as Hh
      by (apply Hlt, elem_of_app; right; by apply list_elem_of_singleton).
    destruct h as [|h]; [lia|]. simpl.
    rewrite List.filter_app. simpl. rewrite Nat.eqb_refl. simpl.
    rewrite app_nil_r, filter_other_handles by (by apply Hown).
    split; [|done]. split; [by rewrite app_nil_r|]. split; [done|]. split; [|done].
    intros i Hi. simpl in *. apply Hlt. apply elem_of_app. by left.
  - done.
Qed.

(** X10. Timer handles being positive numbers: however
    [startPeriodicSync] and [stopPeriodicSync] are interleaved, the service
    owns at most one live interval timer, the one in [syncInterval]; the
    timers started by others are never cleared; and after a final
    [stopPeriodicSync] none of the service's timers is live. *)
Theorem periodic_timer_is_never_duplicated
    (ops : list TimerOp) (others : list nat) (s : Service) :
  owns_at_most_one others s ->
  intervals (timer_run ops s) = others ++ option_list (syncInterval (timer_run ops s))
  /\ intervals (timer_run (ops ++ [StopPeriodicSync]) s) = others.
Proof.
  intros Hok.
  assert (forall ops s, owns_at_most_one others s ->
                        owns_at_most_one others (timer_run ops s)) as Hrun.
  { clear. intros ops. induction ops as [|o ops IH]; intros s Hok; [done|].
    simpl. apply IH. destruct o; simpl.
    - by apply startPeriodicSync_owns.
    - by apply stopPeriodicSync_owns. }
  split; [by apply Hrun|].
  assert (timer_run (ops ++ [StopPeriodicSync]) s
          = SyncServiceTimer.stopPeriodicSync (timer_run ops s)) as ->
    by (unfold timer_run; by rewrite fold_left_app).
  destruct (stopPeriodicSync_owns others _ (Hrun ops s Hok)) as [(Hlive & _) Hnone].
  rewrite Hlive, Hnone. simpl. by rewrite app_nil_r.
Qed.

Lemma periodic_timer_is_never_duplicated_witness :
  intervals (timer_run [StartPeriodicSync; StartPeriodicSync; StopPeriodicSync;
                        StartPeriodicSync] (mkService None [4] 5))
  = [4] ++ option_list (syncInterval
                          (timer_run [StartPeriodicSync; StartPeriodicSync;
                                      StopPeriodicSync; StartPeriodicSync]
                             (mkService None [4] 5))).
Proof.
  refine (proj1 (periodic_timer_is_never_duplicated
                   [StartPeriodicSync; StartPeriodicSync; StopPeriodicSync;
                    StartPeriodicSync] [4] (mkService None [4] 5) _)).
  split; [done|]. split; [simpl; lia|]. split.
  - intros h Hh. apply list_elem_of_singleton in Hh. subst h. simpl. lia.
  - discriminate.
Defined.

(** ** The status shown after a sync *)



(** ** Images: created once, found afterwards *)

Lemma filter_none {A} (f : A -> bool) (l : list A) :
  (forall x, x ∈ l -> f x = false) -> List.filter f l = [].
Proof.
  induction l as [|x l IH]; intros Hno; [done|]. simpl.
  rewrite (Hno x) by apply elem_of_cons, or_introl, eq_refl.
  apply IH. intros y Hy. apply Hno. by apply elem_of_cons, or_intror.
Qed.






(** ** Changing and removing an annotation *)

(** X13. [updateAnnotation] of an id under which the actor owns no row
    (no such annotation, someone else's, or nobody signed in) raises the
    error of [.single()], with no table changed and one request sent;
    the replay of a queued update of that same id returns normally. *)
Theorem updateAnnotation_without_own_row_raises
    (annotationId : nat) (updates : Row) (rows : list Row) (w : World) :
  tables w !! "annotations" = Some rows ->
  (forall r, r ∈ rows -> own_hit w annotationId r = false) ->
  fault w (mkCall "annotations" v_update (Some (JUuid annotationId))) = NoFault ->
  AnnotationWrites.updateAnnotation annotationId updates w
  = (Exn "JSON object requested, multiple (or no) rows returned",
     set_trace (trace w ++ [mkCall "annotations" v_update (Some (JUuid annotationId))]) w)
  /\ (forall item fs,
        operation item = op_update -> table_name item = "annotations" ->
        record_data item = JObj fs -> get_field "id" fs = Some (JUuid annotationId) ->
        fst (replay item w) = Val tt).
Proof.
  intros Ht Hno Hf. split.
  - unfold AnnotationWrites.updateAnnotation, bind, annotations_update_single, request.
    rewrite Hf. cbn [tables set_trace]. rewrite Ht.
    assert (List.filter (own_hit (set_trace (trace w ++
              [mkCall "annotations" v_update (Some (JUuid annotationId))]) w)
              annotationId) rows = []) as ->; [|done].
    apply filter_none. intros r Hr. by apply Hno.
  - intros item fs Hop Htab Hd Hid.
    unfold replay. rewrite Hop, Htab, Hd. unfold bind, prop_id, ret. cbn [fst snd].
    rewrite Hid. unfold tbl_update, request. rewrite Hf.
    cbn [tables set_trace]. by rewrite Ht.
Qed.

Lemma updateAnnotation_without_own_row_raises_witness :
  AnnotationWrites.updateAnnotation 40 [("label", JStr "crater")] Sample.calm_world
  = (Exn "JSON object requested, multiple (or no) rows returned",
     set_trace [mkCall "annotations" v_update (Some (JUuid 40))] Sample.calm_world)
  /\ fst (replay Sample.edit_gone Sample.calm_world) = Val tt.
Proof.
  assert (forall r, r ∈ [[("id", JUuid 41); ("label", JStr "mare")]] ->
                    own_hit Sample.calm_world 40 r = false) as Hno.
  { intros r Hr. apply list_elem_of_singleton in Hr. by subst r. }
  split.
  - exact (proj1 (updateAnnotation_without_own_row_raises 40 [("label", JStr "crater")]
                    _ Sample.calm_world eq_refl Hno eq_refl)).
  - exact (proj2 (updateAnnotation_without_own_row_raises 40 [("label", JStr "crater")]
                    _ Sample.calm_world eq_refl Hno eq_refl)
             Sample.edit_gone _ eq_refl eq_refl eq_refl eq_refl).
Defined.

Lemma filter_sublist {A} (f : A -> bool) (l : list A) : sublist (List.filter f l) l.
Proof.
  induction l as [|x l IH]; simpl; [constructor|].
  destruct (f x); by constructor.
Qed.

Lemma filter_keeps {A} (f : A -> bool) (l : list A) x :
  x ∈ List.filter f l <-> x ∈ l /\ f x = true.
Proof. rewrite !list_elem_of_In. apply filter_In. Qed.

Lemma existsb_none {A} (f : A -> bool) (l : list A) :
  existsb f l = false -> forall x, x ∈ l -> f x = false.
Proof.
  intros He x Hx. destruct (f x) eqn:Hfx; [|done].
  rewrite <- He. symmetry. apply existsb_exists. exists x.
  split; [by apply list_elem_of_In|done].
Qed.

Lemma filter_all {A} (f : A -> bool) (l : list A) :
  (forall x, x ∈ l -> f x = true) -> List.filter f l = l.
Proof.
  induction l as [|x l IH]; intros Hall; [done|]. simpl.
  rewrite (Hall x) by apply elem_of_cons, or_introl, eq_refl.
  f_equal. apply IH. intros y Hy. apply Hall. by apply elem_of_cons, or_intror.
Qed.

(** X14. With the request answered, [deleteAnnotation] returns normally
    whether or not a row went.  What is left of [annotations] is the old
    table, in order, without the rows of that id that the actor owns: rows
    of other users and rows of other ids stay.  When nothing went no table
    changes.  Votes on other annotations stay; when a row went, no vote on
    it is left. *)
Theorem deleteAnnotation_removes_only_own
    (annotationId : nat) (rows : list Row) (w : World) :
  tables w !! "annotations" = Some rows ->
  fault w (mkCall "annotations" v_delete (Some (JUuid annotationId))) = NoFault ->
  exists w1 rows1,
    AnnotationWrites.deleteAnnotation annotationId w = (Val tt, w1)
    /\ tables w1 !! "annotations" = Some rows1
    /\ sublist rows1 rows
    /\ (forall r, r ∈ rows1 <-> r ∈ rows /\ own_hit w annotationId r = false)
    /\ ((forall r, r ∈ rows -> own_hit w annotationId r = false) ->
        tables w1 = tables w)
    /\ (forall votes, tables w !! "annotation_votes" = Some votes ->
        exists votes1,
          tables w1 !! "annotation_votes" = Some votes1
          /\ (forall v, v ∈ votes ->
                matches "annotation_id" (Some (JUuid annotationId)) v = false ->
                v ∈ votes1)
          /\ ((exists r, r ∈ rows /\ own_hit w annotationId r = true) ->
              forall v, v ∈ votes1 ->
                matches "annotation_id" (Some (JUuid annotationId)) v = false)).
Proof.
  intros Ht Hf.
  unfold AnnotationWrites.deleteAnnotation, bind, annotations_delete, request.
  rewrite Hf. cbn [tables set_trace]. rewrite Ht.
  set (w0 := set_trace _ w).
  assert (forall r, own_hit w0 annotationId r = own_hit w annotationId r) as Hsame
    by done.
  assert (forall r, r ∈ List.filter (fun r => negb (own_hit w0 annotationId r)) rows
                    <-> r ∈ rows /\ own_hit w annotationId r = false) as Hrows.
  { intros r. rewrite filter_keeps, Hsame. by rewrite negb_true_iff. }
  destruct (existsb (own_hit w0 annotationId) rows) eqn:Hex; cbn [fst snd error ok_reply].
  - eexists _, _. split; [reflexivity|]. cbn [tables set_tables].
    split; [by rewrite !lookup_alter_ne, lookup_insert_eq by done|].
    split; [apply filter_sublist|]. split; [exact Hrows|]. split.
    + intros Hno. apply existsb_exists in Hex as (r & Hr & Hhit).
      apply list_elem_of_In in Hr. rewrite Hsame, (Hno r Hr) in Hhit. done.
    + intros votes Hv. eexists. split.
      * rewrite lookup_alter_ne, lookup_alter_eq, lookup_insert_ne, Hv by done.
        reflexivity.
      * split.
        -- intros v Hin Hm. apply filter_keeps. split; [done|]. by rewrite Hm.
        -- intros _ v Hin. apply filter_keeps in Hin as [_ Hm].
           by apply negb_true_iff in Hm.
  - pose proof (existsb_none _ _ Hex) as Hno.
    eexists _, _. split; [reflexivity|]. cbn [tables set_tables].
    split; [by rewrite lookup_insert_eq|].
    split; [apply filter_sublist|]. split; [exact Hrows|]. split.
    + intros _. rewrite filter_all.
      * by apply insert_id.
      * intros r Hr. by rewrite (Hno r Hr).
    + intros votes Hv. exists votes. split.
      * by rewrite lookup_insert_ne.
      * split; [done|]. intros (r & Hr & Hhit).
        rewrite <- Hsame, (Hno r Hr) in Hhit. done.
Qed.

Lemma deleteAnnotation_removes_only_own_witness :
  exists w1 rows1,
    AnnotationWrites.deleteAnnotation 41 Sample.calm_world = (Val tt, w1)
    /\ tables w1 !! "annotations" = Some rows1
    /\ [("id", JUuid 41); ("label", JStr "mare")] ∈ rows1.
Proof.
  destruct (deleteAnnotation_removes_only_own 41 _ Sample.calm_world eq_refl eq_refl)
    as (w1 & rows1 & Hrun & Ht & _ & Hrows & _).
  exists w1, rows1. split; [done|]. split; [done|].
  apply Hrows. split; [|done]. by apply list_elem_of_singleton.
Defined.

(** ** The votes of a user *)

Lemma vote_is_projected z r :
  vote_is z (object [("vote", get_field "vote" r)]) = vote_is z r.
Proof. unfold vote_is, object. simpl. by destruct (get_field "vote" r). Qed.

Lemma filter_map_length {A B} (f : B -> bool) (g : A -> B) (l : list A) :
  length (List.filter f (map g l)) = length (List.filter (fun x => f (g x)) l).
Proof.
  induction l as [|x l IH]; [done|]. simpl. destruct (f (g x)); simpl; by rewrite IH.
Qed.

Lemma filter_cons_length {A} (f : A -> bool) (x : A) (l : list A) :
  length (List.filter f (x :: l)) = Nat.b2n (f x) + length (List.filter f l).
Proof. simpl. by destruct (f x). Qed.

Lemma vote_is_exclusive (r : Row) :
  Nat.b2n (vote_is 1 r) + Nat.b2n (vote_is (-1) r) + Nat.b2n (vote_is 0 r) <= 1
  /\ (vote_checked r ->
      Nat.b2n (vote_is 1 r) + Nat.b2n (vote_is (-1) r) + Nat.b2n (vote_is 0 r) = 1).
Proof.
  unfold vote_is, vote_checked. destruct (get_field "vote" r) as [v|].
  - destruct v as [|x| | | |];
      try (split; [simpl; lia|intros (z & [=] & _)]).
    split; [|intros (z & [= <-] & Hz)];
      destruct (Z.eqb_spec x 1), (Z.eqb_spec x (-1)), (Z.eqb_spec x 0); simpl; lia.
  - split; [simpl; lia|intros (z & [=] & _)].
Qed.

Lemma votes_add_up (l : list Row) :
  length (List.filter (vote_is 1) l) + length (List.filter (vote_is (-1)) l)
  + length (List.filter (vote_is 0) l) <= length l
  /\ ((forall r, r ∈ l -> vote_checked r) ->
      length (List.filter (vote_is 1) l) + length (List.filter (vote_is (-1)) l)
      + length (List.filter (vote_is 0) l) = length l).
Proof.
  induction l as [|r l [IH1 IH2]]; [done|].
  rewrite !filter_cons_length. cbn [length].
  destruct (vote_is_exclusive r) as [Hle Heq]. split; [lia|].
  intros Hall.
  assert (forall r, r ∈ l -> vote_checked r) as Hl
    by (intros y Hy; apply Hall; by apply elem_of_cons, or_intror).
  specialize (IH2 Hl).
  specialize (Heq (Hall r ltac:(apply elem_of_cons; by left))). lia.
Qed.

(** X15. For a signed-in user, with the request answered,
    [getUserVoteStats] counts as [total_votes] the rows of
    [annotation_votes] of that user; confirms, rejects and neutrals never
    add up to more than the total, and add up to it exactly when every vote
    of the table satisfies the CHECK of the column. *)
Theorem getUserVoteStats_adds_up (u : nat) (rows : list Row) (w : World) :
  auth_user w = Some u ->
  fault w (mkCall "annotation_votes" v_select (Some (JUuid u))) = NoFault ->
  tables w !! "annotation_votes" = Some rows ->
  exists s,
    fst (ConsensusService.getUserVoteStats w) = Val s
    /\ total_votes s
       = length (List.filter (matches "user_id" (Some (JUuid u))) rows)
    /\ confirms s + rejects s + neutrals s <= total_votes s
    /\ ((forall r, r ∈ rows -> vote_checked r) ->
        confirms s + rejects s + neutrals s = total_votes s).
Proof.
  intros Ha Hf Ht.
  unfold ConsensusService.getUserVoteStats, bind, getUser. rewrite Ha. cbn [fst snd].
  unfold votes_select_vote, request. rewrite Hf. cbn [tables set_trace]. rewrite Ht.
  cbn [fst snd error data ok_reply default]. unfold ret. cbn [fst].
  eexists. split; [reflexivity|]. cbn [total_votes confirms rejects neutrals].
  set (mine := List.filter _ rows).
  unfold Datatypes.id. rewrite !filter_map_length, length_map.
  rewrite !(filter_ext _ _ (fun r => vote_is_projected _ r)).
  split; [done|]. destruct (votes_add_up mine) as [Hle Heq]. split; [done|].
  intros Hall. apply Heq. intros r Hr. apply Hall.
  by apply filter_keeps in Hr as [Hr _].
Qed.

Lemma getUserVoteStats_adds_up_witness :
  exists s,
    fst (ConsensusService.getUserVoteStats
           (set_tables
              {[ "annotation_votes" :=
                   [[("user_id", JUuid 7); ("vote", JNum 1)];
                    [("user_id", JUuid 8); ("vote", JNum (-1))];
                    [("user_id", JUuid 7); ("vote", JNum 0)]] ]}
              Sample.calm_world)) = Val s
    /\ total_votes s = 2
    /\ confirms s + rejects s + neutrals s = total_votes s.
Proof.
  set (votes := [[("user_id", JUuid 7); ("vote", JNum 1)];
                 [("user_id", JUuid 8); ("vote", JNum (-1))];
                 [("user_id", JUuid 7); ("vote", JNum 0)]]).
  set (w := set_tables _ _).
  assert (tables w !! "annotation_votes" = Some votes) as Ht
    by (vm_compute; reflexivity).
  destruct (getUserVoteStats_adds_up 7 votes w eq_refl eq_refl Ht)
    as (s & Hrun & Htot & _ & Hsum).
  exists s. split; [done|]. split; [done|]. apply Hsum.
  intros r Hr. apply list_elem_of_In in Hr. simpl in Hr.
  destruct Hr as [<-|[<-|[<-|[]]]]; eexists; (split; [reflexivity|lia]).
Defined.
